(** * Terminal service of the Qwen coder interface backend

    A shallow embedding of
    [backend/services/terminal_service.py] (class [TerminalService]) and
    of the [Settings] fields it reads from [backend/utils/config.py],
    followed by the properties of command validation, one-shot
    execution, interactive sessions and the file-tree walk.

    Conventions of the embedding:
    - a Python [str] is a [string], one [ascii] per character;
    - a Python [int] is a [Z];
    - a result [dict] is a [gmap string pyval], so that the absence of a
      key can be stated;
    - [self.active_processes] is a [gmap string Process];
    - code that may raise lives in the exception monad [Exc]; code that
      also touches the registry or the process table lives in [M];
    - what the operating system answers (spawn, wait, kill, reads, the
      clock, the file system) is a parameter of the call, a record [Os]
      or [Fs] of answers. *)

From Stdlib Require Import ZArith Ascii String List Bool Lia Sorted.
From stdpp Require Import base option gmap strings list pretty.

Local Open Scope string_scope.
Set Warnings "-register-all".

(** ** Python primitives *)

Module Py.

(** [sub in s] on two strings. *)
Fixpoint contains (sub s : string) : bool :=
  if String.prefix sub s then true
  else match s with
       | EmptyString => false
       | String _ s' => contains sub s'
       end.

(** [x in l] on a list of strings. *)
Definition mem (x : string) (l : list string) : bool :=
  existsb (String.eqb x) l.

(** [len(s)] as a Python integer. *)
Definition len (s : string) : Z := Z.of_nat (String.length s).

(** The first [n] characters of [s]. *)
Fixpoint take (n : nat) (s : string) : string :=
  match n, s with
  | S n', String c s' => String c (take n' s')
  | _, _ => EmptyString
  end.

(** [s[:n]]: a negative bound counts from the end. *)
Definition slice_to (s : string) (n : Z) : string :=
  if (0 <=? n)%Z then take (Z.to_nat n) s
  else take (Z.to_nat (len s + n)) s.

(** [s[i:]] for the index after the last separator, as used by
    [posixpath.basename]: [i = p.rfind('/') + 1; return p[i:]]. *)
Fixpoint after_last_sep (p : string) (acc : string) : string :=
  match p with
  | EmptyString => acc
  | String c p' =>
      if Ascii.eqb c "/"%char then after_last_sep p' p'
      else after_last_sep p' acc
  end.

Definition basename (p : string) : string := after_last_sep p p.

(** [str(n)] / [f"{n}"] for an integer. *)
Definition str_of_int (n : Z) : string := pretty n.

(** Truthiness of an optional string ([None] and the empty string are false). *)
Definition truthy_str (o : option string) : bool :=
  match o with
  | Some s => negb (String.eqb s EmptyString)
  | None => false
  end.

End Py.

(** ** Exceptions *)

(** The exception classes the handlers of the service tell apart; every
    one of them is a subclass of [Exception]. *)
Inductive exn_class : Type :=
  | TimeoutError
  | PermissionError
  | ValueError
  | ProcessLookupError
  | OtherError (name : string).

(** An exception object: its class and [str(e)]. *)
Record exn : Type := Exn { exn_cls : exn_class; exn_str : string }.

Inductive Exc (A : Type) : Type :=
  | Ret (a : A)
  | Raise (e : exn).
Arguments Ret {A} a.
Arguments Raise {A} e.

Definition is_timeout (e : exn) : bool :=
  match exn_cls e with TimeoutError => true | _ => false end.

Definition is_permission (e : exn) : bool :=
  match exn_cls e with PermissionError => true | _ => false end.

Module ExcM.

Definition bind {A B} (m : Exc A) (k : A -> Exc B) : Exc B :=
  match m with
  | Ret a => k a
  | Raise e => Raise e
  end.

(** [try: body  except Exception as e: handler(e)] *)
Definition try_except {A} (body : Exc A) (handler : exn -> Exc A) : Exc A :=
  match body with
  | Ret a => Ret a
  | Raise e => handler e
  end.

(** [try: body  except <classes matched by sel>: handler(e)] *)
Definition try_except_when {A} (sel : exn -> bool)
    (body : Exc A) (handler : exn -> Exc A) : Exc A :=
  match body with
  | Ret a => Ret a
  | Raise e => if sel e then handler e else Raise e
  end.

End ExcM.

(** ** [shlex.split(command)]

    [shlex.split(s)] builds [shlex(s, posix=True)] with
    [whitespace_split = True] and no comment characters and collects the
    tokens of [read_token] until it returns [None].  The lexer below
    follows [shlex.read_token] state by state for that configuration
    (no punctuation characters, no comment characters). *)

Module Shlex.

(** [self.state]: [None], a space, a quote character, the escape
    character, or the letter a (inside a word). *)
Inductive lex_state : Type :=
  | StNone
  | StWhite
  | StQuote (q : ascii)
  | StEscape
  | StWord.

(** The registers of a [read_token] call. *)
Record regs : Type := Regs {
  state : lex_state;
  token : string;
  quoted : bool;
  escapedstate : lex_state
}.

Definition is_whitespace (c : ascii) : bool :=
  Ascii.eqb c " "%char || Ascii.eqb c "009"%char
  || Ascii.eqb c "013"%char || Ascii.eqb c "010"%char.

Definition is_quote (c : ascii) : bool :=
  Ascii.eqb c "'"%char || Ascii.eqb c "034"%char.

Definition is_escape (c : ascii) : bool := Ascii.eqb c "\"%char.

(** [escapedquotes]: the double quote only. *)
Definition is_escapedquote (c : ascii) : bool := Ascii.eqb c "034"%char.

Definition push (tok : string) (c : ascii) : string :=
  tok +:+ String c EmptyString.

(** What one iteration of the [while True] loop does with a character
    that was read: go on reading, or [break]. *)
Inductive action : Type :=
  | Continue (r : regs)
  | Break (r : regs).

Definition emit_or_continue (r : regs) : action :=
  if negb (String.eqb (token r) EmptyString) || quoted r then Break r else Continue r.

Definition step (c : ascii) (r : regs) : action :=
  match state r with
  | StNone =>
      Break (Regs StNone EmptyString (quoted r) (escapedstate r))
  | StWhite =>
      if is_whitespace c then emit_or_continue r
      else if is_escape c then
        Continue (Regs StEscape (token r) (quoted r) StWord)
      else if is_quote c then
        Continue (Regs (StQuote c) (token r) (quoted r) (escapedstate r))
      else
        Continue (Regs StWord (String c EmptyString) (quoted r) (escapedstate r))
  | StQuote q =>
      if Ascii.eqb c q then
        Continue (Regs StWord (token r) true (escapedstate r))
      else if is_escape c && is_escapedquote q then
        Continue (Regs StEscape (token r) true (StQuote q))
      else
        Continue (Regs (StQuote q) (push (token r) c) true (escapedstate r))
  | StEscape =>
      let tok :=
        match escapedstate r with
        | StQuote q =>
            if negb (is_escape c) && negb (Ascii.eqb c q)
            then push (token r) "\"%char else token r
        | _ => token r
        end in
      Continue (Regs (escapedstate r) (push tok c) (quoted r) (escapedstate r))
  | StWord =>
      if is_whitespace c then
        emit_or_continue (Regs StWhite (token r) (quoted r) (escapedstate r))
      else if is_quote c then
        Continue (Regs (StQuote c) (token r) (quoted r) (escapedstate r))
      else if is_escape c then
        Continue (Regs StEscape (token r) (quoted r) StWord)
      else
        Continue (Regs StWord (push (token r) c) (quoted r) (escapedstate r))
  end.

(** The value [read_token] returns after a [break]: [None] for an
    unquoted empty token. *)
Definition result_of (r : regs) : option string :=
  if negb (quoted r) && String.eqb (token r) EmptyString then None else Some (token r).

(** The registers at the start of the next [read_token] call:
    [self.state] is kept, the token and the two locals are reset. *)
Definition restart (r : regs) : regs := Regs (state r) EmptyString false StWhite.

(** [list(lex)]: the loop of [read_token] calls over the input, [acc]
    holding the tokens returned so far, most recent first. *)
Fixpoint run (input : string) (r : regs) (acc : list string)
  : Exc (list string) :=
  match input with
  | EmptyString =>
      match state r with
      | StNone => Ret (rev acc)
      | StWhite | StWord =>
          match result_of r with
          | None => Ret (rev acc)
          | Some t => Ret (rev (t :: acc))
          end
      | StQuote _ => Raise (Exn ValueError "No closing quotation")
      | StEscape => Raise (Exn ValueError "No escaped character")
      end
  | String c rest =>
      match step c r with
      | Continue r' => run rest r' acc
      | Break r' =>
          match result_of r' with
          | None => Ret (rev acc)
          | Some t => run rest (restart r') (t :: acc)
          end
      end
  end.

Definition split (s : string) : Exc (list string) :=
  run s (Regs StWhite EmptyString false StWhite) [].

End Shlex.

(** ** Settings (the terminal section of [utils/config.py]) *)

Record Settings : Type := {
  terminal_max_output : Z;
  terminal_timeout : Z;
  terminal_allowed_commands : list string;
  terminal_forbidden_patterns : list string
}.

Definition default_settings : Settings := {|
  terminal_max_output := 10000;
  terminal_timeout := 30;
  terminal_allowed_commands :=
    ["ls"; "pwd"; "cd"; "cat"; "echo"; "grep"; "find";
     "python"; "pip"; "npm"; "node"; "git"; "docker"];
  terminal_forbidden_patterns :=
    ["rm -rf /"; "sudo"; "chmod 777"; "curl | bash"]
|}.

(** ** [TerminalService._validate_command] *)

Definition Verdict : Type := (bool * option string)%type.

(** The [for pattern in ...: if pattern in command: return ...] loop:
    the first configured pattern that occurs in the command. *)
Definition first_forbidden (st : Settings) (command : string) : option string :=
  find (fun pattern => Py.contains pattern command)
       (terminal_forbidden_patterns st).

Definition check_allowed (st : Settings) (parts : list string) : Exc Verdict :=
  match parts with
  | [] => Ret (false, Some "Empty command")
  | base_command :: _ =>
      match terminal_allowed_commands st with
      | [] => Ret (true, None)
      | allowed =>
          if negb (Py.mem base_command allowed) then
            let command_name := Py.basename base_command in
            if negb (Py.mem command_name allowed) then
              Ret (false,
                   Some ("Command '" +:+ base_command +:+ "' is not allowed"))
            else Ret (true, None)
          else Ret (true, None)
      end
  end.

Definition _validate_command (st : Settings) (command : string) : Exc Verdict :=
  match first_forbidden st command with
  | Some pattern =>
      Ret (false, Some ("Command contains forbidden pattern: " +:+ pattern))
  | None =>
      ExcM.try_except
        (ExcM.bind (Shlex.split command) (check_allowed st))
        (fun e => Ret (false, Some ("Invalid command format: " +:+ exn_str e)))
  end.

(** ** Values, result dictionaries, processes *)

Inductive pyval : Type :=
  | VNone
  | VBool (b : bool)
  | VInt (n : Z)
  | VStr (s : string).

Definition of_opt_str (o : option string) : pyval :=
  match o with
  | Some s => VStr s
  | None => VNone
  end.

(** A process handle, identified by its pid. *)
Record Process : Type := { pid : Z }.

(** What the service has done so far with a process it spawned:
    nothing yet, killed it, or waited for it to the end (a completed
    [communicate()], which collects the exit status). *)
Inductive pstatus : Type :=
  | Running
  | Killed
  | Reaped.

(** The mutable state: [self.active_processes] and the table of the
    processes spawned by the service. *)
Record World : Type := {
  active_processes : gmap string Process;
  proc_table : gmap Z pstatus
}.

(** The answers of the operating system and of asyncio during one call.
    The captured streams are given as text: [bytes.decode('utf-8',
    errors='replace')] is total, so decoding adds no outcome.  The
    current directory and the environment, read before the [try]
    block, are values. *)
Record Os : Type := {
  path_exists : string -> bool;
  getcwd : string;
  environ : gmap string string;
  now_timestamp : string;
  create_subprocess_shell :
    string -> string -> gmap string string -> Exc Process;
  create_subprocess_exec : string -> Exc Process;
  (** [await asyncio.wait_for(process.communicate(), timeout)]: decoded
      stdout, decoded stderr and [process.returncode], or an exception,
      [TimeoutError] when the bound expires. *)
  wait_for_communicate : Process -> Z -> Exc (string * string * Z);
  process_kill : Process -> Exc unit;
  (** [await process.communicate()] without a bound; its output is not
      used by any caller. *)
  communicate : Process -> Exc (string * string);
  (** [process.stdin.write(data); await process.stdin.drain()] *)
  stdin_write : Process -> string -> Exc unit;
  (** [await asyncio.wait_for(process.stdout.read(4096), 0.1)], decoded *)
  wait_for_read : Process -> Exc string
}.

(** ** The state and exception monad of the service *)

Definition M (A : Type) : Type := World -> Exc A * World.

Module SM.

Definition ret {A} (a : A) : M A := fun w => (Ret a, w).

Definition bind {A B} (m : M A) (k : A -> M B) : M B :=
  fun w => match m w with
           | (Ret a, w') => k a w'
           | (Raise e, w') => (Raise e, w')
           end.

Definition lift {A} (m : Exc A) : M A := fun w => (m, w).

(** [try: body  except <classes matched by sel> as e: handler(e)] *)
Definition try_except_when {A} (sel : exn -> bool)
    (body : M A) (handler : exn -> M A) : M A :=
  fun w => match body w with
           | (Ret a, w') => (Ret a, w')
           | (Raise e, w') =>
               if sel e then handler e w' else (Raise e, w')
           end.

(** [try: body  except Exception as e: handler(e)] *)
Definition try_except {A} (body : M A) (handler : exn -> M A) : M A :=
  try_except_when (fun _ => true) body handler.

(** [try: body  finally: cleanup], for a cleanup that does not
    raise: the outcome of the body, a value returned or an exception,
    passes through. *)
Definition try_finally {A} (body : M A) (cleanup : World -> World) : M A :=
  fun w => let '(r, w') := body w in (r, cleanup w').

Definition modify (f : World -> World) : M unit :=
  fun w => (Ret tt, f w).

Definition registry_lookup (key : string) : M (option Process) :=
  fun w => (Ret (active_processes w !! key), w).

End SM.

Notation "'let!' x ':=' m 'in' k" := (SM.bind m (fun x => k))
  (at level 10, x name, m at level 100, k at level 200).

(** Registry and process-table updates. *)
Definition register (key : string) (p : Process) (w : World) : World :=
  {| active_processes := <[key := p]> (active_processes w);
     proc_table := proc_table w |}.

Definition unregister (key : string) (w : World) : World :=
  {| active_processes := delete key (active_processes w);
     proc_table := proc_table w |}.

Definition set_status (p : Process) (s : pstatus) (w : World) : World :=
  {| active_processes := active_processes w;
     proc_table := <[pid p := s]> (proc_table w) |}.

(** The process operations, with their effect on the process table. *)
Definition effect {A} (answer : Exc A) (p : Process) (s : pstatus) : M A :=
  fun w => match answer with
           | Ret a => (Ret a, set_status p s w)
           | Raise e => (Raise e, w)
           end.

Definition spawn (answer : Exc Process) : M Process :=
  fun w => match answer with
           | Ret p => (Ret p, set_status p Running w)
           | Raise e => (Raise e, w)
           end.

Definition do_wait_for_communicate (os : Os) (p : Process) (timeout : Z)
  : M (string * string * Z) :=
  effect (wait_for_communicate os p timeout) p Reaped.

Definition do_kill (os : Os) (p : Process) : M unit :=
  effect (process_kill os p) p Killed.

Definition do_communicate (os : Os) (p : Process) : M (string * string) :=
  effect (communicate os p) p Reaped.

(** ** [TerminalService.execute_command] *)

Definition nl : string := String "010"%char EmptyString.

Definition truncation_marker : string := nl +:+ "... [output truncated]".

(** [if len(text) > max: text = text[:max] + marker] *)
Definition truncate (st : Settings) (text : string) : string :=
  if (Py.len text >? terminal_max_output st)%Z
  then Py.slice_to text (terminal_max_output st) +:+ truncation_marker
  else text.

(** [output = stdout_text; if stderr_text: output += ...] *)
Definition combine_output (stdout_text stderr_text : string) : string :=
  if String.eqb stderr_text EmptyString then stdout_text
  else stdout_text +:+ nl +:+ "[stderr]:" +:+ nl +:+ stderr_text.

Definition error_result (msg : pyval) : gmap string pyval :=
  {[ "success" := VBool false;
     "error" := msg;
     "output" := VStr EmptyString;
     "exit_code" := VInt (-1) ]}.

Definition completed_result (st : Settings) (stdout stderr : string)
    (returncode : Z) : gmap string pyval :=
  let stdout_text := truncate st stdout in
  let stderr_text := truncate st stderr in
  {[ "success" := VBool (returncode =? 0)%Z;
     "output" := VStr (combine_output stdout_text stderr_text);
     "exit_code" := VInt returncode;
     "stdout" := VStr stdout_text;
     "stderr" := VStr stderr_text ]}.

Definition timeout_message (timeout : Z) : string :=
  "Command timed out after " +:+ Py.str_of_int timeout +:+ " seconds".

(** [timeout or self.settings.terminal_timeout] *)
Definition effective_timeout (st : Settings) (timeout : option Z) : Z :=
  match timeout with
  | Some t => if (t =? 0)%Z then terminal_timeout st else t
  | None => terminal_timeout st
  end.

Definition resolve_cwd (os : Os) (working_dir : option string) : string :=
  match working_dir with
  | Some d =>
      if Py.truthy_str working_dir && path_exists os d then d else getcwd os
  | None => getcwd os
  end.

Definition merge_env (os : Os) (env : option (gmap string string))
  : gmap string string :=
  match env with
  | Some e => if bool_decide (e = ∅) then environ os else e ∪ environ os
  | None => environ os
  end.

(** [f"{session_id}_{datetime.now().timestamp()}"] *)
Definition execution_id (os : Os) (session_id : string) : string :=
  session_id +:+ "_" +:+ now_timestamp os.

Definition execute_command (st : Settings) (os : Os)
    (command session_id : string) (working_dir : option string)
    (env : option (gmap string string)) (timeout : option Z)
  : M (gmap string pyval) :=
  let! verdict := SM.lift (_validate_command st command) in
  let '(is_valid, error_msg) := verdict in
  if negb is_valid then SM.ret (error_result (of_opt_str error_msg))
  else
    let cwd := resolve_cwd os working_dir in
    let cmd_env := merge_env os env in
    let timeout := effective_timeout st timeout in
    SM.try_except
      (let! process := spawn (create_subprocess_shell os command cwd cmd_env) in
       let process_id := execution_id os session_id in
       let! _ := SM.modify (register process_id process) in
       SM.try_finally
         (SM.try_except_when is_timeout
            (let! r := do_wait_for_communicate os process timeout in
             let '(stdout, stderr, returncode) := r in
             SM.ret (completed_result st stdout stderr returncode))
            (fun _ =>
               let! _ := do_kill os process in
               let! _ := do_communicate os process in
               SM.ret (error_result (VStr (timeout_message timeout)))))
         (unregister process_id))
      (fun e => SM.ret (error_result (VStr (exn_str e)))).

(** ** Interactive sessions *)

Definition create_interactive_session (os : Os) (session_id shell : string)
  : M (gmap string pyval) :=
  SM.try_except
    (let! process := spawn (create_subprocess_exec os shell) in
     let! _ := SM.modify (register session_id process) in
     SM.ret ({[ "success" := VBool true;
                "session_id" := VStr session_id;
                "pid" := VInt (pid process) ]} : gmap string pyval))
    (fun e =>
       SM.ret ({[ "success" := VBool false;
                  "error" := VStr (exn_str e) ]} : gmap string pyval)).

(** The result is [Some text], or [None] for Python's [None]. *)
Definition send_to_session (os : Os) (session_id input_data : string)
  : M (option string) :=
  let! entry := SM.registry_lookup session_id in
  match entry with
  | None => SM.ret None
  | Some process =>
      SM.try_except
        (SM.try_except_when is_timeout
           (let! _ := SM.lift (stdin_write os process input_data) in
            let! output := SM.lift (wait_for_read os process) in
            SM.ret (Some output))
           (fun _ => SM.ret (Some EmptyString)))
        (fun _ => SM.ret None)
  end.

Definition kill_session (os : Os) (session_id : string) : M bool :=
  let! entry := SM.registry_lookup session_id in
  match entry with
  | None => SM.ret false
  | Some process =>
      SM.try_except
        (let! _ := do_kill os process in
         let! _ := do_communicate os process in
         let! _ := SM.modify (unregister session_id) in
         SM.ret true)
        (fun _ => SM.ret false)
  end.

(** ** [TerminalService.get_file_tree] *)

(** A resolved absolute path: its components below the root. *)
Definition Path : Type := list string.

(** [current_path.name] (empty for the root). *)
Definition path_name (p : Path) : string := List.last p EmptyString.

Fixpoint join_components (p : Path) : string :=
  match p with
  | [] => EmptyString
  | c :: rest => "/" +:+ c +:+ join_components rest
  end.

(** [str(current_path)] *)
Definition path_str (p : Path) : string :=
  match p with
  | [] => "/"
  | _ => join_components p
  end.

(** [os.stat_result], the two fields that are read.  The modification
    time is only handed to [datetime.fromtimestamp]; it is kept as an
    integer here. *)
Record stat_result : Type := { st_size : Z; st_mtime : Z }.

(** The answers of the file system during one walk. *)
Record Fs : Type := {
  resolve : string -> Exc Path;
  path_exists_fs : Path -> Exc bool;
  is_dir : Path -> Exc bool;
  (** the names of the entries of a directory, in the order of the
      operating system *)
  iterdir : Path -> Exc (list string);
  stat : Path -> Exc stat_result;
  (** [datetime.fromtimestamp(t).isoformat()] *)
  isoformat_of_timestamp : Z -> Exc string
}.

(** A node of the returned tree: the dict with keys [name], [path],
    [type] and, when they were set, [children], [error], [size] and
    [modified]. *)
Inductive tree : Type :=
  Node {
    node_name : string;
    node_path : string;
    node_type : string;
    node_children : option (list tree);
    node_error : option string;
    node_size : option Z;
    node_modified : option string
  }.

Definition default_ignore_patterns : list string :=
  ["__pycache__"; ".git"; "node_modules"; ".venv"; "venv"].

Definition should_ignore (ignore_patterns : list string) (name : string) : bool :=
  existsb (fun pattern => Py.contains pattern name) ignore_patterns.

(** [sorted(...)] on the entries of one directory: siblings compare by
    their names. *)
Fixpoint insert_sorted (x : string) (l : list string) : list string :=
  match l with
  | [] => [x]
  | y :: rest =>
      if String.leb x y then x :: y :: rest else y :: insert_sorted x rest
  end.

Fixpoint sorted (l : list string) : list string :=
  match l with
  | [] => []
  | x :: rest => insert_sorted x (sorted rest)
  end.

(** The first three keys of [result]. *)
Definition base_node (p : Path) (is_directory : bool) : tree :=
  Node (path_name p) (path_str p)
       (if is_directory then "directory" else "file")
       None None None None.

Definition with_children (result : tree) (cs : list tree)
    (err : option string) : tree :=
  Node (node_name result) (node_path result) (node_type result)
       (Some cs) err (node_size result) (node_modified result).

Definition with_size (result : tree) (n : Z) : tree :=
  Node (node_name result) (node_path result) (node_type result)
       (node_children result) (node_error result) (Some n)
       (node_modified result).

Definition with_modified (result : tree) (m : string) : tree :=
  Node (node_name result) (node_path result) (node_type result)
       (node_children result) (node_error result) (node_size result)
       (Some m).

(** The [else] branch of [build_tree]:
    [try: stat = ...; result["size"] = ...; result["modified"] = ...
     except: pass]. *)
Definition add_file_info (fs : Fs) (p : Path) (result : tree) : tree :=
  match stat fs p with
  | Raise _ => result
  | Ret s =>
      let result := with_size result (st_size s) in
      match isoformat_of_timestamp fs (st_mtime s) with
      | Raise _ => result
      | Ret iso => with_modified result iso
      end
  end.

(** The [for item in ...] loop of [build_tree], [visit] being the
    recursive call on one entry. *)
Fixpoint collect_children (ignore_patterns : list string)
    (visit : string -> Exc (option tree)) (items : list string)
  : Exc (list tree) :=
  match items with
  | [] => Ret []
  | item :: rest =>
      if should_ignore ignore_patterns item
      then collect_children ignore_patterns visit rest
      else
        ExcM.bind (visit item) (fun child =>
        ExcM.bind (collect_children ignore_patterns visit rest) (fun cs =>
        Ret (match child with
             | Some c => c :: cs
             | None => cs
             end)))
  end.

(** [build_tree], by recursion on [max_depth - depth], the number of
    levels that remain: [depth >= max_depth] is [remaining = 0]. *)
Fixpoint build_tree_at (fs : Fs) (ignore_patterns : list string)
    (remaining : nat) (current_path : Path) : Exc (option tree) :=
  match remaining with
  | O => Ret None
  | S remaining' =>
      ExcM.bind (is_dir fs current_path) (fun d =>
      let result := base_node current_path d in
      if d then
        ExcM.try_except_when is_permission
          (ExcM.bind (iterdir fs current_path) (fun names =>
           ExcM.bind
             (collect_children ignore_patterns
                (fun item =>
                   build_tree_at fs ignore_patterns remaining'
                     (current_path ++ [item])%list)
                (sorted names))
             (fun children =>
                Ret (Some (with_children result children None)))))
          (fun _ =>
             Ret (Some (with_children result [] (Some "Permission denied"))))
      else Ret (Some (add_file_info fs current_path result)))
  end.

Definition build_tree (fs : Fs) (ignore_patterns : list string)
    (max_depth : Z) (current_path : Path) (depth : Z) : Exc (option tree) :=
  build_tree_at fs ignore_patterns (Z.to_nat (max_depth - depth)) current_path.

(** What [get_file_tree] returns: the tree (or [None]), or the dict
    with the single key [error]. *)
Inductive tree_response : Type :=
  | TreeResult (t : option tree)
  | TreeError (msg : string).

Definition get_file_tree (fs : Fs) (path : string) (max_depth : Z)
    (ignore_patterns : option (list string)) : tree_response :=
  let patterns :=
    match ignore_patterns with
    | Some (x :: l) => x :: l
    | _ => default_ignore_patterns
    end in
  match
    ExcM.bind (resolve fs path) (fun root_path =>
    ExcM.bind (path_exists_fs fs root_path) (fun present =>
    if negb present then Ret (TreeError "Path does not exist")
    else
      ExcM.bind (build_tree fs patterns max_depth root_path 0) (fun t =>
      Ret (TreeResult t))))
  with
  | Ret r => r
  | Raise e => TreeError (exn_str e)
  end.

(** ** Vocabulary of the statements *)

(** [sub] occurs in [s] as a substring. *)
Definition occurs (sub s : string) : Prop :=
  exists pre post, s = pre +:+ sub +:+ post.

(** The value a call returns (or the exception it raises) and the state
    it leaves, from the state [w]. *)
Definition outcome {A} (call : M A) (w : World) : Exc A := fst (call w).
Definition state_after {A} (call : M A) (w : World) : World := snd (call w).

(** The answer to the spawn of [execute_command]. *)
Definition spawn_answer (os : Os) (command : string)
    (working_dir : option string) (env : option (gmap string string))
  : Exc Process :=
  create_subprocess_shell os command (resolve_cwd os working_dir)
    (merge_env os env).

(** An exception [e] reaches the outer handler of [execute_command]:
    the spawn raises it, or the bounded wait raises it and it is not a
    timeout, or, after a timeout, the kill or the drain raises it. *)
Definition raises_internally (st : Settings) (os : Os) (command : string)
    (working_dir : option string) (env : option (gmap string string))
    (timeout : option Z) (e : exn) : Prop :=
  spawn_answer os command working_dir env = Raise e
  \/ exists p,
       spawn_answer os command working_dir env = Ret p /\
       ((wait_for_communicate os p (effective_timeout st timeout) = Raise e
         /\ is_timeout e = false)
        \/ exists e0,
             wait_for_communicate os p (effective_timeout st timeout) = Raise e0
             /\ is_timeout e0 = true
             /\ (process_kill os p = Raise e
                 \/ (process_kill os p = Ret tt /\ communicate os p = Raise e))).

(** ** Concrete runs *)

(** An operating system that gives the same scripted answers to every
    spawn, wait, kill and drain. *)
Definition scripted_os (spawn_result : Exc Process)
    (wait_result : Exc (string * string * Z)) (kill_result : Exc unit)
    (drain_result : Exc (string * string)) : Os := {|
  path_exists := fun _ => false;
  getcwd := "/srv/app";
  environ := ∅;
  now_timestamp := "1700000000.25";
  create_subprocess_shell := fun _ _ _ => spawn_result;
  create_subprocess_exec := fun _ => spawn_result;
  wait_for_communicate := fun _ _ => wait_result;
  process_kill := fun _ => kill_result;
  communicate := fun _ => drain_result;
  stdin_write := fun _ _ => Ret tt;
  wait_for_read := fun _ => Ret EmptyString
|}.

(** A service with no session and no process. *)
Definition idle : World := {| active_processes := ∅; proc_table := ∅ |}.

Definition settings_with_cap (cap : Z) : Settings := {|
  terminal_max_output := cap;
  terminal_timeout := terminal_timeout default_settings;
  terminal_allowed_commands := terminal_allowed_commands default_settings;
  terminal_forbidden_patterns := terminal_forbidden_patterns default_settings
|}.

(** Runs of [execute_command] used below. *)

(** The bounded wait raises an exception that is not a timeout while
    the child is still running. *)
Definition os_wait_fails : Os :=
  scripted_os (Ret {| pid := 4242 |})
    (Raise (Exn (OtherError "MemoryError") EmptyString))
    (Ret tt) (Ret (EmptyString, EmptyString)).

(** The spawn raises an exception whose text is empty. *)
Definition os_spawn_fails : Os :=
  scripted_os (Raise (Exn (OtherError "NotImplementedError") EmptyString))
    (Ret (EmptyString, EmptyString, 0%Z))
    (Ret tt) (Ret (EmptyString, EmptyString)).

(** The command completes and prints eleven characters. *)
Definition os_prints_hello : Os :=
  scripted_os (Ret {| pid := 7 |})
    (Ret ("hello world", EmptyString, 0%Z))
    (Ret tt) (Ret (EmptyString, EmptyString)).

(** The bound expires; the kill and the drain go through. *)
Definition os_times_out : Os :=
  scripted_os (Ret {| pid := 77 |})
    (Raise (Exn TimeoutError EmptyString))
    (Ret tt) (Ret ("partial", EmptyString)).


(** A service with one interactive session, [s1], on process 100. *)
Definition one_session : World := {|
  active_processes := {[ "s1" := {| pid := 100 |} ]};
  proc_table := {[ 100%Z := Running ]}
|}.

(** Every spawn yields process 200; kills and drains go through. *)
Definition os_spawns_200 : Os :=
  scripted_os (Ret {| pid := 200 |})
    (Ret (EmptyString, EmptyString, 0%Z))
    (Ret tt) (Ret (EmptyString, EmptyString)).


(** ** Vocabulary for the file tree *)

(** The number of levels of a tree. *)
Fixpoint tree_height (t : tree) : nat :=
  match t with
  | Node _ _ _ children _ _ _ =>
      S (match children with
         | None => 0
         | Some l =>
             (fix max_height (l : list tree) : nat :=
                match l with
                | [] => 0
                | c :: rest => Nat.max (tree_height c) (max_height rest)
                end) l
         end)
  end.

(** [P] holds of a node and of every node below it. *)
Inductive every_node (P : tree -> Prop) : tree -> Prop :=
  | every_node_intro (t : tree) :
      P t ->
      (forall cs, node_children t = Some cs -> Forall (every_node P) cs) ->
      every_node P t.

(** The entries of a listing that the walk visits, in the order in
    which it visits them. *)
Definition visited (ignore_patterns : list string) (names : list string)
  : list string :=
  List.filter (fun item => negb (should_ignore ignore_patterns item))
    (sorted names).

(** A list of names in ascending order. *)
Definition ascending (l : list string) : Prop :=
  StronglySorted (fun a b => String.leb a b = true) l.

(** A file system with a directory [/proj] that holds a cache
    directory, a source directory [src] with one file, and a file. *)
Definition nested_fs : Fs := {|
  resolve := fun _ => Ret ["proj"];
  path_exists_fs := fun _ => Ret true;
  is_dir := fun p =>
    Ret (bool_decide (p = ["proj"]) || bool_decide (p = ["proj"; "src"])
         || bool_decide (p = ["proj"; "__pycache__"]));
  iterdir := fun p =>
    if bool_decide (p = ["proj"]) then Ret ["src"; "__pycache__"; "README"]
    else if bool_decide (p = ["proj"; "src"]) then Ret ["main.py"]
    else Ret [];
  stat := fun _ => Ret {| st_size := 3; st_mtime := 1700000000 |};
  isoformat_of_timestamp := fun _ => Ret "2023-11-14T22:13:20"
|}.

(** The walk of [nested_fs] with two levels. *)
Definition nested_tree : tree :=
  Node "proj" "/proj" "directory"
    (Some [ Node "README" "/proj/README" "file" None None
              (Some 3%Z) (Some "2023-11-14T22:13:20");
            Node "src" "/proj/src" "directory" (Some []) None None None ])
    None None None.

(** A file system whose directory [/secret] cannot be listed. *)
Definition denied_fs : Fs := {|
  resolve := fun _ => Ret ["secret"];
  path_exists_fs := fun _ => Ret true;
  is_dir := fun _ => Ret true;
  iterdir := fun _ =>
    Raise (Exn PermissionError "[Errno 13] Permission denied: '/secret'");
  stat := fun _ => Ret {| st_size := 0; st_mtime := 0 |};
  isoformat_of_timestamp := fun _ => Ret "1970-01-01T00:00:00"
|}.

(** ** Vocabulary for commands *)

(** Every character of [s] satisfies [f]. *)
Fixpoint all_chars (f : ascii -> bool) (s : string) : bool :=
  match s with
  | EmptyString => true
  | String c s' => f c && all_chars f s'
  end.

(** A character that the tokenizer copies into a word as it is: no
    whitespace, no quote, no backslash. *)
Definition is_plain (c : ascii) : bool :=
  negb (Shlex.is_whitespace c) && negb (Shlex.is_quote c)
  && negb (Shlex.is_escape c).

(** A word: not empty, made of plain characters. *)
Definition plain_word (w : string) : bool :=
  negb (String.eqb w EmptyString) && all_chars is_plain w.

(** A character other than the path separator. *)
Definition not_sep (c : ascii) : bool := negb (Ascii.eqb c "/"%char).

(** ** [TerminalService.initialize], [is_ready] and [cleanup] *)

(** The service object: its state and the flag [_ready]. *)
Record Service : Type := { svc_state : World; _ready : bool }.

Definition initialize (s : Service) : Service :=
  {| svc_state := svc_state s; _ready := true |}.

Definition is_ready (s : Service) : bool := _ready s.

(** One turn of the loop of [cleanup]:
    [try: process.kill(); await process.communicate()  except: pass]. *)
Definition cleanup_one (os : Os) (p : Process) (w : World) : World :=
  snd (SM.try_except
         (let! _ := do_kill os p in
          let! _ := do_communicate os p in
          SM.ret tt)
         (fun _ => SM.ret tt) w).

(** The loop over [list(self.active_processes.items())], for the items
    in a given order. *)
Definition cleanup_processes (os : Os) (items : list (string * Process))
    (w : World) : World :=
  foldl (fun acc item => cleanup_one os (snd item) acc) w items.

(** [cleanup], the items of the registry being visited in the order
    [items]; then [self.active_processes.clear()] and
    [self._ready = False]. *)
Definition cleanup_in_order (os : Os) (items : list (string * Process))
    (s : Service) : Service :=
  {| svc_state :=
       {| active_processes := ∅;
          proc_table :=
            proc_table (cleanup_processes os items (svc_state s)) |};
     _ready := false |}.

Definition cleanup (os : Os) (s : Service) : Service :=
  cleanup_in_order os (map_to_list (active_processes (svc_state s))) s.

(** What the kill and the drain of [cleanup] make of the status of a
    process: nothing when the kill raises, [Killed] when only the drain
    raises, [Reaped] when both return. *)
Definition status_after_cleanup (os : Os) (p : Process) : option pstatus :=
  match process_kill os p with
  | Raise _ => None
  | Ret _ =>
      match communicate os p with
      | Raise _ => Some Killed
      | Ret _ => Some Reaped
      end
  end.

(** ** The HTTP routes of [routes/terminal.py] *)

(** The answer of a route: the returned body, or the status and the
    detail of the [HTTPException] it raises. *)
Inductive http_response : Type :=
  | HttpOk (body : gmap string pyval)
  | HttpError (status : Z) (detail : pyval).

(** Truthiness of a value. *)
Definition truthy (v : option pyval) : bool :=
  match v with
  | Some (VBool b) => b
  | Some (VInt n) => negb (n =? 0)%Z
  | Some (VStr s) => negb (String.eqb s EmptyString)
  | Some VNone | None => false
  end.

(** [DELETE /session/{session_id}] *)
Definition kill_terminal_session (os : Os) (session_id : string) (w : World)
  : http_response * World :=
  match kill_session os session_id w with
  | (Ret success, w') =>
      if negb success
      then (HttpError 404 (VStr "Session not found"), w')
      else (HttpOk {[ "message" := VStr "Session killed";
                      "session_id" := VStr session_id ]}, w')
  | (Raise e, w') => (HttpError 500 (VStr (exn_str e)), w')
  end.

(** [POST /session/create]; [fresh_uuid] is [str(uuid.uuid4())]. *)
Definition create_terminal_session (os : Os) (fresh_uuid : string)
    (session_id : option string) (w : World) : http_response * World :=
  let session_id :=
    if Py.truthy_str session_id then default fresh_uuid session_id
    else fresh_uuid in
  match create_interactive_session os session_id "/bin/bash" w with
  | (Ret result, w') =>
      if negb (truthy (result !! "success"))
      then (HttpError 500 (default VNone (result !! "error")), w')
      else (HttpOk result, w')
  | (Raise e, w') => (HttpError 500 (VStr (exn_str e)), w')
  end.

(** A service with two sessions. *)
Definition two_sessions : World := {|
  active_processes := {[ "s1" := {| pid := 100 |}; "s2" := {| pid := 101 |} ]};
  proc_table := {[ 100%Z := Running; 101%Z := Running ]}
|}.

(** Every kill finds its process gone. *)
Definition os_kill_fails : Os :=
  scripted_os (Ret {| pid := 200 |})
    (Ret (EmptyString, EmptyString, 0%Z))
    (Raise (Exn ProcessLookupError EmptyString))
    (Ret (EmptyString, EmptyString)).

(** A service in which an interactive session is registered under the
    id that [os_prints_hello] makes [execute_command] generate for the
    session [default]. *)
Definition colliding_session : World := {|
  active_processes := {[ "default_1700000000.25" := {| pid := 100 |} ]};
  proc_table := {[ 100%Z := Running ]}
|}.

(** ** Calls that await without a bound *)

(** [await process.communicate()] outside [asyncio.wait_for] has no
    time bound: it completes only when the pipes of the process reach
    end of file.  A call that reaches such an await is done, with a
    value or an exception and the state it leaves, or it hangs for ever
    in the state it had reached. *)
Inductive Run (A : Type) : Type :=
  | Done (r : Exc A) (w : World)
  | Hangs (w : World).
Arguments Done {A} r w.
Arguments Hangs {A} w.

Definition MR (A : Type) : Type := World -> Run A.

Module RunM.

Definition ret {A} (a : A) : MR A := fun w => Done (Ret a) w.

Definition bind {A B} (m : MR A) (k : A -> MR B) : MR B :=
  fun w => match m w with
           | Done (Ret a) w' => k a w'
           | Done (Raise e) w' => Done (Raise e) w'
           | Hangs w' => Hangs w'
           end.

(** A step that always answers. *)
Definition of_M {A} (m : M A) : MR A :=
  fun w => let '(r, w') := m w in Done r w'.

Definition try_except_when {A} (sel : exn -> bool)
    (body : MR A) (handler : exn -> MR A) : MR A :=
  fun w => match body w with
           | Done (Ret a) w' => Done (Ret a) w'
           | Done (Raise e) w' =>
               if sel e then handler e w' else Done (Raise e) w'
           | Hangs w' => Hangs w'
           end.

Definition try_except {A} (body : MR A) (handler : exn -> MR A) : MR A :=
  try_except_when (fun _ => true) body handler.

(** [try: body  finally: cleanup]: the cleanup runs when the body is
    done, not while it hangs. *)
Definition try_finally {A} (body : MR A) (cleanup : World -> World) : MR A :=
  fun w => match body w with
           | Done r w' => Done r (cleanup w')
           | Hangs w' => Hangs w'
           end.

End RunM.

Notation "'let?' x ':=' m 'in' k" := (RunM.bind m (fun x => k))
  (at level 10, x name, m at level 100, k at level 200).

(** The unbounded drain of [p]; [blocks p] tells that it never
    completes. *)
Definition do_communicate_unbounded (os : Os) (blocks : Process -> bool)
    (p : Process) : MR (string * string) :=
  fun w => if blocks p then Hangs w else RunM.of_M (do_communicate os p) w.

(** [execute_command] with the drain of its timeout handler
    unbounded, as the source has it. *)
Definition execute_command_run (st : Settings) (os : Os)
    (blocks : Process -> bool)
    (command session_id : string) (working_dir : option string)
    (env : option (gmap string string)) (timeout : option Z)
  : MR (gmap string pyval) :=
  let? verdict := RunM.of_M (SM.lift (_validate_command st command)) in
  let '(is_valid, error_msg) := verdict in
  if negb is_valid then RunM.ret (error_result (of_opt_str error_msg))
  else
    let cwd := resolve_cwd os working_dir in
    let cmd_env := merge_env os env in
    let timeout := effective_timeout st timeout in
    RunM.try_except
      (let? process :=
         RunM.of_M (spawn (create_subprocess_shell os command cwd cmd_env)) in
       let process_id := execution_id os session_id in
       let? _ := RunM.of_M (SM.modify (register process_id process)) in
       RunM.try_finally
         (RunM.try_except_when is_timeout
            (let? r := RunM.of_M (do_wait_for_communicate os process timeout) in
             let '(stdout, stderr, returncode) := r in
             RunM.ret (completed_result st stdout stderr returncode))
            (fun _ =>
               let? _ := RunM.of_M (do_kill os process) in
               let? _ := do_communicate_unbounded os blocks process in
               RunM.ret (error_result (VStr (timeout_message timeout)))))
         (unregister process_id))
      (fun e => RunM.ret (error_result (VStr (exn_str e)))).

(** One turn of the loop of [cleanup], its drain unbounded. *)
Definition cleanup_one_run (os : Os) (blocks : Process -> bool)
    (p : Process) : MR unit :=
  RunM.try_except
    (let? _ := RunM.of_M (do_kill os p) in
     let? _ := do_communicate_unbounded os blocks p in
     RunM.ret tt)
    (fun _ => RunM.ret tt).

Fixpoint cleanup_loop_run (os : Os) (blocks : Process -> bool)
    (items : list (string * Process)) : MR unit :=
  match items with
  | [] => RunM.ret tt
  | item :: rest =>
      let? _ := cleanup_one_run os blocks (snd item) in
      cleanup_loop_run os blocks rest
  end.

(** How [cleanup] ends: it finishes, an exception leaves it, or it is
    stuck for ever in a loop turn. *)
Inductive cleanup_end : Type :=
  | Finished (s : Service)
  | Aborted (e : exn) (s : Service)
  | Stuck (s : Service).

(** [cleanup] with its drains unbounded, the items of the registry
    being visited in the order [items]: the registry is cleared and
    [_ready] reset only once the loop is over. *)
Definition cleanup_run_in_order (os : Os) (blocks : Process -> bool)
    (items : list (string * Process)) (s : Service) : cleanup_end :=
  match cleanup_loop_run os blocks items (svc_state s) with
  | Done (Ret _) w =>
      Finished {| svc_state :=
                    {| active_processes := ∅; proc_table := proc_table w |};
                  _ready := false |}
  | Done (Raise e) w => Aborted e {| svc_state := w; _ready := _ready s |}
  | Hangs w => Stuck {| svc_state := w; _ready := _ready s |}
  end.

Definition cleanup_run (os : Os) (blocks : Process -> bool) (s : Service)
  : cleanup_end :=
  cleanup_run_in_order os blocks
    (map_to_list (active_processes (svc_state s))) s.

(** No drain blocks; the drain of process 100 blocks. *)
Definition never_blocks (p : Process) : bool := false.
Definition blocks_100 (p : Process) : bool := (pid p =? 100)%Z.

(** * Properties *)

(** ** Strings *)

Lemma append_cons (c : ascii) (a b : string) :
  String c a +:+ b = String c (a +:+ b).
Proof. reflexivity. Qed.

Lemma append_empty_l (b : string) : EmptyString +:+ b = b.
Proof. reflexivity. Qed.

Lemma prefix_spec (p s : string) :
  String.prefix p s = true <-> exists post, s = p +:+ post.
Proof.
  revert s; induction p as [|c p IH]; intros s.
  - split; [intros _; by exists s | intros _; by destruct s].
  - destruct s as [|d s].
    + split; [done | intros [post H]; discriminate].
    + simpl. destruct (ascii_dec c d) as [->|Hne].
      * rewrite IH. split; intros [post H]; exists post.
        -- by rewrite append_cons, H.
        -- rewrite append_cons in H. congruence.
      * split; [done | intros [post H]; rewrite append_cons in H; congruence].
Qed.

Lemma contains_unfold (sub s : string) :
  Py.contains sub s =
    if String.prefix sub s then true
    else match s with
         | EmptyString => false
         | String _ s' => Py.contains sub s'
         end.
Proof. by destruct s. Qed.

Lemma prefix_occurs (sub s : string) :
  String.prefix sub s = true -> occurs sub s.
Proof.
  intros E. apply prefix_spec in E as [post E]. by exists EmptyString, post.
Qed.

Lemma contains_occurs (sub s : string) :
  Py.contains sub s = true <-> occurs sub s.
Proof.
  induction s as [|c s IH]; rewrite contains_unfold;
    destruct (String.prefix sub _) eqn:E.
  - split; [intros _; by apply prefix_occurs | reflexivity].
  - split; [discriminate |]. intros ([|? pre] & post & H).
    + assert (String.prefix sub EmptyString = true) by (apply prefix_spec; eauto).
      congruence.
    + discriminate.
  - split; [intros _; by apply prefix_occurs | reflexivity].
  - rewrite IH. split.
    + intros (pre & post & ->). by exists (String c pre), post.
    + intros ([|d pre] & post & H).
      * assert (String.prefix sub (String c s) = true)
          by (apply prefix_spec; eauto).
        congruence.
      * rewrite append_cons in H. injection H as _ ->. by exists pre, post.
Qed.

Lemma append_empty_r (s : string) : s +:+ EmptyString = s.
Proof.
  induction s as [|c s IH]; [done |]. rewrite append_cons. congruence.
Qed.

Lemma occurs_suffix (pre sub : string) : occurs sub (pre +:+ sub).
Proof. exists pre, EmptyString. by rewrite append_empty_r. Qed.

Lemma mem_In (x : string) (l : list string) : Py.mem x l = true <-> In x l.
Proof.
  unfold Py.mem. rewrite existsb_exists. split.
  - intros (y & Hy & E). apply String.eqb_eq in E. by subst.
  - intros H. exists x. split; [done | apply String.eqb_refl].
Qed.

Lemma append_nonempty_l (a b : string) : a <> EmptyString -> a +:+ b <> EmptyString.
Proof. destruct a; [done | discriminate]. Qed.

(** ** The forbidden-pattern loop *)

Lemma first_forbidden_Some (st : Settings) (command p : string) :
  first_forbidden st command = Some p ->
  In p (terminal_forbidden_patterns st) /\ occurs p command.
Proof.
  intros H. apply find_some in H as [Hin Hc].
  split; [done | by apply contains_occurs].
Qed.

Lemma first_forbidden_None (st : Settings) (command : string) :
  first_forbidden st command = None <->
  forall p, In p (terminal_forbidden_patterns st) -> ~ occurs p command.
Proof.
  unfold first_forbidden. split.
  - intros H p Hin Hocc. apply contains_occurs in Hocc.
    pose proof (find_none _ _ H p Hin) as Hn. simpl in Hn. congruence.
  - intros H. destruct (find _ _) as [p|] eqn:E; [|done].
    apply find_some in E as [Hin Hc]. apply contains_occurs in Hc.
    by destruct (H p Hin).
Qed.

Lemma first_forbidden_is_Some (st : Settings) (command : string) :
  (exists p, In p (terminal_forbidden_patterns st) /\ occurs p command) ->
  exists p, first_forbidden st command = Some p.
Proof.
  intros (p & Hin & Hocc).
  destruct (first_forbidden st command) as [q|] eqn:E; [eauto |].
  exfalso. eapply first_forbidden_None; eauto.
Qed.

(** ** The allow-list check *)

Lemma check_allowed_accepts (st : Settings) (parts : list string) :
  check_allowed st parts = Ret (true, None) <->
  exists base rest, parts = base :: rest /\
    (terminal_allowed_commands st = []
     \/ In base (terminal_allowed_commands st)
     \/ In (Py.basename base) (terminal_allowed_commands st)).
Proof.
  unfold check_allowed. destruct parts as [|base rest].
  - split; [done | intros (? & ? & ? & _); done].
  - destruct (terminal_allowed_commands st) as [|a l] eqn:Ea.
    + split; [intros _; exists base, rest; auto | done].
    + destruct (Py.mem base (a :: l)) eqn:E1; cbn [negb].
      * split; [intros _ | done]. exists base, rest.
        split; [done |]. right; left. exact (proj1 (mem_In _ _) E1).
      * destruct (Py.mem (Py.basename base) (a :: l)) eqn:E2; cbn [negb].
        -- split; [intros _ | done]. exists base, rest.
           split; [done |]. right; right. exact (proj1 (mem_In _ _) E2).
        -- split; [done |]. intros (b & r & [= <- <-] & [H | [H | H]]).
           ++ done.
           ++ apply (proj2 (mem_In _ _)) in H. congruence.
           ++ apply (proj2 (mem_In _ _)) in H. congruence.
Qed.

Lemma check_allowed_total (st : Settings) (parts : list string) :
  check_allowed st parts = Ret (true, None)
  \/ exists reason, check_allowed st parts = Ret (false, Some reason)
                     /\ reason <> EmptyString.
Proof.
  unfold check_allowed. destruct parts as [|base rest].
  - right. by eexists.
  - destruct (terminal_allowed_commands st) as [|a l]; [by left |].
    destruct (negb (Py.mem base (a :: l))); [| by left].
    destruct (negb (Py.mem (Py.basename base) (a :: l))); [| by left].
    right. by eexists.
Qed.

(** ** The tokenizer *)

Lemma run_raises (input : string) (r : Shlex.regs) (acc : list string) (e : exn) :
  Shlex.run input r acc = Raise e ->
  e = Exn ValueError "No closing quotation"
  \/ e = Exn ValueError "No escaped character".
Proof.
  revert r acc; induction input as [|c rest IH]; intros r acc; simpl.
  - destruct (Shlex.state r); try destruct (Shlex.result_of r);
      intros [=]; subst; auto.
  - destruct (Shlex.step c r) as [r'|r']; [apply IH |].
    destruct (Shlex.result_of r'); [apply IH | done].
Qed.

Lemma split_raises (command : string) (e : exn) :
  Shlex.split command = Raise e ->
  e = Exn ValueError "No closing quotation"
  \/ e = Exn ValueError "No escaped character".
Proof. apply run_raises. Qed.

(** ** [_validate_command] *)

(** The call always returns a verdict: acceptance without a reason, or
    rejection with a reason that is not empty. *)
Lemma validate_total (st : Settings) (command : string) :
  _validate_command st command = Ret (true, None)
  \/ exists reason, _validate_command st command = Ret (false, Some reason)
                     /\ reason <> EmptyString.
Proof.
  unfold _validate_command.
  destruct (first_forbidden st command) as [p|]; [right; by eexists |].
  destruct (Shlex.split command) as [parts|e]; simpl.
  - destruct (check_allowed_total st parts) as [H | (reason & H & Hne)];
      rewrite H; simpl; [by left | right; by eexists].
  - right. by eexists.
Qed.

Lemma validate_no_forbidden (st : Settings) (command : string) :
  first_forbidden st command = None ->
  _validate_command st command =
    match Shlex.split command with
    | Ret parts => check_allowed st parts
    | Raise e => Ret (false, Some ("Invalid command format: " +:+ exn_str e))
    end.
Proof.
  intros H. unfold _validate_command. rewrite H.
  destruct (Shlex.split command) as [parts|e]; simpl; [| done].
  by destruct (check_allowed_total st parts) as [H' | (reason & H' & _)];
    rewrite H'.
Qed.

(** C6, as amended: a command that contains a configured forbidden
    substring is rejected, and the reason is the fixed text followed by
    the first configured pattern, in the order of the configuration,
    that occurs in the command; that pattern occurs in the reason.  A
    command free of forbidden substrings is accepted exactly when it
    has a first shell token and either the allow-list is empty (no
    restriction) or that token, or its basename, is in the
    allow-list. *)
Theorem validate_command_policy (st : Settings) (command : string) :
  ((exists p, In p (terminal_forbidden_patterns st) /\ occurs p command) ->
   exists p reason,
     In p (terminal_forbidden_patterns st) /\ occurs p command /\
     first_forbidden st command = Some p /\
     _validate_command st command = Ret (false, Some reason) /\
     reason = "Command contains forbidden pattern: " +:+ p /\
     occurs p reason)
  /\
  ((forall p, In p (terminal_forbidden_patterns st) -> ~ occurs p command) ->
   (_validate_command st command = Ret (true, None) <->
    exists base rest,
      Shlex.split command = Ret (base :: rest) /\
      (terminal_allowed_commands st = []
       \/ In base (terminal_allowed_commands st)
       \/ In (Py.basename base) (terminal_allowed_commands st)))).
Proof.
  split.
  - intros Hex. destruct (first_forbidden_is_Some _ _ Hex) as [p Hp].
    destruct (first_forbidden_Some _ _ _ Hp) as [Hin Hocc].
    exists p, ("Command contains forbidden pattern: " +:+ p).
    repeat split; try done.
    + unfold _validate_command. by rewrite Hp.
    + apply occurs_suffix.
  - intros Hfree. apply first_forbidden_None in Hfree.
    rewrite (validate_no_forbidden _ _ Hfree).
    destruct (Shlex.split command) as [parts|e].
    + rewrite check_allowed_accepts. split.
      * intros (base & rest & -> & H). by exists base, rest.
      * intros (base & rest & [= ->] & H). by exists base, rest.
    + split; [done | intros (? & ? & ? & _); done].
Qed.

Lemma validate_command_policy_witness :
  exists p reason,
    In p (terminal_forbidden_patterns default_settings) /\
    occurs p "sudo ls" /\
    first_forbidden default_settings "sudo ls" = Some p /\
    _validate_command default_settings "sudo ls" = Ret (false, Some reason) /\
    reason = "Command contains forbidden pattern: " +:+ p /\
    occurs p reason.
Proof.
  apply (proj1 (validate_command_policy default_settings "sudo ls")).
  exists "sudo". split.
  - simpl. auto.
  - exists EmptyString, " ls". reflexivity.
Defined.

(** C6 as stated fails: with the default configuration the command
    below contains the forbidden substring [sudo], and it is rejected,
    but the reason names [rm -rf /], the pattern that comes first in
    the configuration, and [sudo] does not occur in it. *)
Lemma validate_command_names_first_pattern_only :
  In "sudo" (terminal_forbidden_patterns default_settings)
  /\ occurs "sudo" "sudo rm -rf /"
  /\ _validate_command default_settings "sudo rm -rf /"
     = Ret (false, Some "Command contains forbidden pattern: rm -rf /")
  /\ ~ occurs "sudo" "Command contains forbidden pattern: rm -rf /".
Proof.
  split; [simpl; auto |]. split; [by exists EmptyString, " rm -rf /" |].
  split; [reflexivity |].
  intros H. apply contains_occurs in H. vm_compute in H. discriminate.
Qed.

(** C7: [_validate_command] returns a verdict for every command string
    and never raises.  A command that tokenizes to the empty list is
    rejected with a reason; a command on which [shlex.split] raises is
    rejected with a reason too, and when no forbidden pattern came
    first that reason carries the text of the tokenizer's exception
    (an unclosed quotation or a dangling escape). *)
Theorem validate_command_never_raises (st : Settings) (command : string) :
  (exists allowed reason, _validate_command st command = Ret (allowed, reason))
  /\
  (Shlex.split command = Ret [] ->
   exists reason,
     _validate_command st command = Ret (false, Some reason)
     /\ reason <> EmptyString
     /\ (first_forbidden st command = None -> reason = "Empty command"))
  /\
  (forall e, Shlex.split command = Raise e ->
   exists reason,
     _validate_command st command = Ret (false, Some reason)
     /\ reason <> EmptyString
     /\ (first_forbidden st command = None ->
         reason = "Invalid command format: " +:+ exn_str e
         /\ (exn_str e = "No closing quotation"
             \/ exn_str e = "No escaped character"))).
Proof.
  split; [| split].
  - destruct (validate_total st command) as [H | (reason & H & _)];
      rewrite H; eauto.
  - intros Hs. unfold _validate_command.
    destruct (first_forbidden st command) as [p|].
    + eexists. split; [done |]. split; [done | done].
    + rewrite Hs. simpl. eexists. split; [done |]. split; done.
  - intros e Hs. unfold _validate_command.
    destruct (first_forbidden st command) as [p|].
    + eexists. split; [done |]. split; [done | done].
    + rewrite Hs. simpl. eexists. split; [done |]. split; [done |].
      intros _. split; [done |].
      destruct (split_raises _ _ Hs) as [-> | ->]; auto.
Qed.

Lemma validate_command_never_raises_witness :
  exists reason,
    _validate_command default_settings "echo 'oops" = Ret (false, Some reason)
    /\ reason <> EmptyString
    /\ (first_forbidden default_settings "echo 'oops" = None ->
        reason = "Invalid command format: "
                 +:+ exn_str (Exn ValueError "No closing quotation")
        /\ (exn_str (Exn ValueError "No closing quotation") = "No closing quotation"
            \/ exn_str (Exn ValueError "No closing quotation") = "No escaped character")).
Proof.
  apply (proj2 (proj2 (validate_command_never_raises default_settings "echo 'oops"))).
  reflexivity.
Defined.

(** ** [execute_command]: one equation per path *)

Section ExecuteCommand.

Variables (st : Settings) (os : Os) (command session_id : string).
Variables (working_dir : option string) (env : option (gmap string string)).
Variables (timeout : option Z).

Local Abbreviation call :=
  (execute_command st os command session_id working_dir env timeout).
Local Abbreviation key := (execution_id os session_id).
Local Abbreviation spawned :=
  (create_subprocess_shell os command (resolve_cwd os working_dir)
     (merge_env os env)).
Local Abbreviation bound := (effective_timeout st timeout).
(** The state once the process [p] is spawned and registered. *)
Local Abbreviation started p w := (register key p (set_status p Running w)).

Lemma exec_rejected (w : World) (reason : option string) :
  _validate_command st command = Ret (false, reason) ->
  call w = (Ret (error_result (of_opt_str reason)), w).
Proof. intros Hv. unfold execute_command, SM.bind, SM.lift. by rewrite Hv. Qed.

Lemma exec_spawn_fails (w : World) (r : option string) (e : exn) :
  _validate_command st command = Ret (true, r) ->
  spawned = Raise e ->
  call w = (Ret (error_result (VStr (exn_str e))), w).
Proof.
  intros Hv Hs.
  unfold execute_command, SM.bind, SM.lift, SM.try_except,
    SM.try_except_when, spawn.
  by rewrite Hv, Hs.
Qed.

Lemma exec_completed (w : World) (r : option string) (p : Process)
    (out err : string) (rc : Z) :
  _validate_command st command = Ret (true, r) ->
  spawned = Ret p ->
  wait_for_communicate os p bound = Ret (out, err, rc) ->
  call w = (Ret (completed_result st out err rc),
            unregister key (set_status p Reaped (started p w))).
Proof.
  intros Hv Hs Hw.
  unfold execute_command, SM.bind, SM.lift, SM.try_except, SM.try_finally,
    SM.try_except_when, SM.modify, SM.ret, spawn, do_wait_for_communicate,
    effect.
  by rewrite Hv, Hs, Hw.
Qed.

Lemma exec_wait_error (w : World) (r : option string) (p : Process) (e : exn) :
  _validate_command st command = Ret (true, r) ->
  spawned = Ret p ->
  wait_for_communicate os p bound = Raise e ->
  is_timeout e = false ->
  call w = (Ret (error_result (VStr (exn_str e))),
            unregister key (started p w)).
Proof.
  intros Hv Hs Hw Ht.
  unfold execute_command, SM.bind, SM.lift, SM.try_except, SM.try_finally,
    SM.try_except_when, SM.modify, SM.ret, spawn, do_wait_for_communicate,
    effect.
  by rewrite Hv, Hs, Hw, Ht.
Qed.

Lemma exec_timeout_kill_fails (w : World) (r : option string) (p : Process)
    (e e' : exn) :
  _validate_command st command = Ret (true, r) ->
  spawned = Ret p ->
  wait_for_communicate os p bound = Raise e ->
  is_timeout e = true ->
  process_kill os p = Raise e' ->
  call w = (Ret (error_result (VStr (exn_str e'))),
            unregister key (started p w)).
Proof.
  intros Hv Hs Hw Ht Hk.
  unfold execute_command, SM.bind, SM.lift, SM.try_except, SM.try_finally,
    SM.try_except_when, SM.modify, SM.ret, spawn, do_wait_for_communicate,
    do_kill, do_communicate, effect.
  by rewrite Hv, Hs, Hw, Ht, Hk.
Qed.

Lemma exec_timeout_drain_fails (w : World) (r : option string) (p : Process)
    (e e' : exn) :
  _validate_command st command = Ret (true, r) ->
  spawned = Ret p ->
  wait_for_communicate os p bound = Raise e ->
  is_timeout e = true ->
  process_kill os p = Ret tt ->
  communicate os p = Raise e' ->
  call w = (Ret (error_result (VStr (exn_str e'))),
            unregister key (set_status p Killed (started p w))).
Proof.
  intros Hv Hs Hw Ht Hk Hd.
  unfold execute_command, SM.bind, SM.lift, SM.try_except, SM.try_finally,
    SM.try_except_when, SM.modify, SM.ret, spawn, do_wait_for_communicate,
    do_kill, do_communicate, effect.
  by rewrite Hv, Hs, Hw, Ht, Hk, Hd.
Qed.

Lemma exec_timeout_killed (w : World) (r : option string) (p : Process)
    (e : exn) (drained : string * string) :
  _validate_command st command = Ret (true, r) ->
  spawned = Ret p ->
  wait_for_communicate os p bound = Raise e ->
  is_timeout e = true ->
  process_kill os p = Ret tt ->
  communicate os p = Ret drained ->
  call w = (Ret (error_result (VStr (timeout_message bound))),
            unregister key
              (set_status p Reaped (set_status p Killed (started p w)))).
Proof.
  intros Hv Hs Hw Ht Hk Hd.
  unfold execute_command, SM.bind, SM.lift, SM.try_except, SM.try_finally,
    SM.try_except_when, SM.modify, SM.ret, spawn, do_wait_for_communicate,
    do_kill, do_communicate, effect.
  by rewrite Hv, Hs, Hw, Ht, Hk, Hd.
Qed.

(** The registry after a path that spawned a process. *)
Lemma registry_after_started (w w' : World) (p : Process) :
  active_processes w' = active_processes (started p w) ->
  active_processes (unregister key w') = delete key (active_processes w).
Proof. intros H. simpl. rewrite H. simpl. apply delete_insert_eq. Qed.

End ExecuteCommand.

(** ** Slices *)

Lemma take_length (n : nat) (s : string) :
  String.length (Py.take n s) = Nat.min n (String.length s).
Proof.
  revert s; induction n as [|n IH]; intros [|c s]; simpl; auto.
Qed.

Lemma take_prefix (n : nat) (s : string) :
  String.prefix (Py.take n s) s = true.
Proof.
  apply prefix_spec. revert s; induction n as [|n IH]; intros [|c s].
  - by exists EmptyString.
  - by exists (String c s).
  - by exists EmptyString.
  - destruct (IH s) as [post E]. exists post. simpl.
    rewrite append_cons. congruence.
Qed.

(** ** [execute_command]: every call returns a result *)

Section ExecuteProperties.

Variables (st : Settings) (os : Os) (command session_id : string).
Variables (working_dir : option string) (env : option (gmap string string)).
Variables (timeout : option Z).

Local Abbreviation call :=
  (execute_command st os command session_id working_dir env timeout).
Local Abbreviation key := (execution_id os session_id).
Local Abbreviation spawned := (spawn_answer os command working_dir env).
Local Abbreviation bound := (effective_timeout st timeout).

(** The result is the error dict or the completion dict, and the
    registry loses the execution id if a process was spawned and is
    untouched otherwise. *)
Lemma exec_shape (w : World) :
  (exists msg, outcome call w = Ret (error_result msg))
  \/ (exists r p out err rc,
        _validate_command st command = Ret (true, r) /\
        spawned = Ret p /\
        wait_for_communicate os p bound = Ret (out, err, rc) /\
        outcome call w = Ret (completed_result st out err rc)).
Proof.
  unfold outcome.
  destruct (validate_total st command) as [Hv | (reason & Hv & _)].
  2:{ left. eexists. by rewrite (exec_rejected _ _ _ _ _ _ _ _ _ Hv). }
  destruct spawned as [p|e] eqn:Hs.
  2:{ left. eexists. by rewrite (exec_spawn_fails _ _ _ _ _ _ _ _ _ _ Hv Hs). }
  destruct (wait_for_communicate os p bound) as [[[out err] rc]|e] eqn:Hw.
  { right. exists None, p, out, err, rc.
    by rewrite (exec_completed _ _ _ _ _ _ _ _ _ _ _ _ _ Hv Hs Hw). }
  left. destruct (is_timeout e) eqn:Ht.
  2:{ eexists. by rewrite (exec_wait_error _ _ _ _ _ _ _ _ _ _ _ Hv Hs Hw Ht). }
  destruct (process_kill os p) as [[]|e'] eqn:Hk.
  2:{ eexists.
      by rewrite (exec_timeout_kill_fails _ _ _ _ _ _ _ _ _ _ _ _ Hv Hs Hw Ht Hk). }
  destruct (communicate os p) as [drained|e'] eqn:Hd.
  - eexists.
    by rewrite (exec_timeout_killed _ _ _ _ _ _ _ _ _ _ _ _ Hv Hs Hw Ht Hk Hd).
  - eexists.
    by rewrite (exec_timeout_drain_fails _ _ _ _ _ _ _ _ _ _ _ _ Hv Hs Hw Ht Hk Hd).
Qed.

(** On every path the registry has no entry for the execution id once
    a process was spawned, and is unchanged when none was. *)
Lemma exec_deregisters (w : World) :
  (forall reason, _validate_command st command = Ret (false, reason) ->
     active_processes (state_after call w) = active_processes w)
  /\ (forall e, spawned = Raise e ->
        active_processes (state_after call w) = active_processes w)
  /\ (forall r p, _validate_command st command = Ret (true, r) ->
        spawned = Ret p ->
        active_processes (state_after call w) = delete key (active_processes w)
        /\ active_processes (state_after call w) !! key = None).
Proof.
  unfold state_after. split; [| split].
  - intros reason Hv. by rewrite (exec_rejected _ _ _ _ _ _ _ _ _ Hv).
  - intros e Hs.
    destruct (validate_total st command) as [Hv | (reason & Hv & _)].
    + by rewrite (exec_spawn_fails _ _ _ _ _ _ _ _ _ _ Hv Hs).
    + by rewrite (exec_rejected _ _ _ _ _ _ _ _ _ Hv).
  - intros r p Hv Hs.
    assert (active_processes (call w).2 = delete key (active_processes w)) as E.
    { destruct (wait_for_communicate os p bound) as [[[out err] rc]|e] eqn:Hw.
      { rewrite (exec_completed _ _ _ _ _ _ _ _ _ _ _ _ _ Hv Hs Hw).
        by eapply registry_after_started. }
      destruct (is_timeout e) eqn:Ht.
      2:{ rewrite (exec_wait_error _ _ _ _ _ _ _ _ _ _ _ Hv Hs Hw Ht).
          by eapply registry_after_started. }
      destruct (process_kill os p) as [[]|e'] eqn:Hk.
      2:{ rewrite (exec_timeout_kill_fails _ _ _ _ _ _ _ _ _ _ _ _ Hv Hs Hw Ht Hk).
          by eapply registry_after_started. }
      destruct (communicate os p) as [drained|e'] eqn:Hd.
      - rewrite (exec_timeout_killed _ _ _ _ _ _ _ _ _ _ _ _ Hv Hs Hw Ht Hk Hd).
        by eapply registry_after_started.
      - rewrite (exec_timeout_drain_fails _ _ _ _ _ _ _ _ _ _ _ _ Hv Hs Hw Ht Hk Hd).
        by eapply registry_after_started. }
    split; [done |]. rewrite E. apply lookup_delete_eq.
Qed.


(** C2, as amended: a call that completes has [success] true exactly
    when the exit code of the process is 0, and [exit_code] is that
    exit code.  A call rejected by validation has [success] false,
    [exit_code] -1 and the reason, which is never empty, as [error].
    A call in which the spawn, the wait, the kill or the drain raises
    has [success] false, [exit_code] -1 and the text of the exception
    as [error], whatever that text is. *)
Theorem execute_command_result_invariant (w : World) :
  (forall r p out err rc,
     _validate_command st command = Ret (true, r) ->
     spawned = Ret p ->
     wait_for_communicate os p bound = Ret (out, err, rc) ->
     exists d,
       outcome call w = Ret d
       /\ d !! "success" = Some (VBool (rc =? 0)%Z)
       /\ ((rc =? 0)%Z = true <-> rc = 0%Z)
       /\ d !! "exit_code" = Some (VInt rc))
  /\
  (forall reason,
     _validate_command st command = Ret (false, reason) ->
     exists d msg,
       outcome call w = Ret d
       /\ reason = Some msg /\ msg <> EmptyString
       /\ d !! "success" = Some (VBool false)
       /\ d !! "exit_code" = Some (VInt (-1))
       /\ d !! "error" = Some (VStr msg))
  /\
  (forall r e,
     _validate_command st command = Ret (true, r) ->
     raises_internally st os command working_dir env timeout e ->
     exists d,
       outcome call w = Ret d
       /\ d !! "success" = Some (VBool false)
       /\ d !! "exit_code" = Some (VInt (-1))
       /\ d !! "error" = Some (VStr (exn_str e))).
Proof.
  unfold outcome. split; [| split].
  - intros r p out err rc Hv Hs Hw.
    rewrite (exec_completed _ _ _ _ _ _ _ _ _ _ _ _ _ Hv Hs Hw).
    eexists. split; [done |]. split; [done |].
    split; [apply Z.eqb_eq | done].
  - intros reason Hv.
    rewrite (exec_rejected _ _ _ _ _ _ _ _ _ Hv).
    destruct (validate_total st command) as [Hv' | (msg & Hv' & Hne)];
      [congruence |].
    assert (reason = Some msg) as -> by congruence.
    by exists (error_result (VStr msg)), msg.
  - intros r e Hv [Hs | (p & Hs & [[Hw Ht] | (e0 & Hw & Ht & [Hk | [Hk Hd]])])].
    + rewrite (exec_spawn_fails _ _ _ _ _ _ _ _ _ _ Hv Hs). by eexists.
    + rewrite (exec_wait_error _ _ _ _ _ _ _ _ _ _ _ Hv Hs Hw Ht). by eexists.
    + rewrite (exec_timeout_kill_fails _ _ _ _ _ _ _ _ _ _ _ _ Hv Hs Hw Ht Hk).
      by eexists.
    + rewrite (exec_timeout_drain_fails _ _ _ _ _ _ _ _ _ _ _ _ Hv Hs Hw Ht Hk Hd).
      by eexists.
Qed.

(** C3, as amended: a decoded stream longer than the configured cap
    is cut to [text[:cap]], which for a cap that is not negative is
    the first [cap] characters, and the truncation marker is appended;
    a stream whose length is at or under the cap, also exactly at the
    cap, is returned as it is.  The result carries the two streams so
    treated under [stdout] and [stderr]; no result of
    [execute_command] has a [truncated] key. *)
Theorem execute_command_truncation (w : World) :
  (forall text,
     (Py.len text > terminal_max_output st)%Z ->
     truncate st text
     = Py.slice_to text (terminal_max_output st) +:+ truncation_marker
     /\ ((0 <= terminal_max_output st)%Z ->
         Py.len (Py.slice_to text (terminal_max_output st))
         = terminal_max_output st
         /\ String.prefix (Py.slice_to text (terminal_max_output st)) text
            = true))
  /\
  (forall text,
     (Py.len text <= terminal_max_output st)%Z -> truncate st text = text)
  /\
  (forall r p out err rc,
     _validate_command st command = Ret (true, r) ->
     spawned = Ret p ->
     wait_for_communicate os p bound = Ret (out, err, rc) ->
     exists d,
       outcome call w = Ret d
       /\ d !! "stdout" = Some (VStr (truncate st out))
       /\ d !! "stderr" = Some (VStr (truncate st err))
       /\ d !! "output"
          = Some (VStr (combine_output (truncate st out) (truncate st err))))
  /\
  (forall d, outcome call w = Ret d -> d !! "truncated" = None).
Proof.
  split; [| split; [| split]].
  - intros text Hlen. unfold truncate.
    destruct (Z.gtb_spec (Py.len text) (terminal_max_output st)); [| lia].
    split; [done |]. intros Hcap. unfold Py.slice_to.
    destruct (Z.leb_spec 0 (terminal_max_output st)); [| lia].
    split; [| apply take_prefix].
    unfold Py.len in *. rewrite take_length. lia.
  - intros text Hlen. unfold truncate.
    by destruct (Z.gtb_spec (Py.len text) (terminal_max_output st)); [lia |].
  - intros r p out err rc Hv Hs Hw. unfold outcome.
    rewrite (exec_completed _ _ _ _ _ _ _ _ _ _ _ _ _ Hv Hs Hw).
    by eexists.
  - intros d Hd.
    destruct (exec_shape w) as [(msg & H) | (r & p & out & err & rc & _ & _ & _ & H)];
      rewrite H in Hd; injection Hd as <-; reflexivity.
Qed.



(** C10: when the call ends in a timeout, the [output] of the result
    is the empty string and the result has neither a [stdout] nor a
    [stderr] key, whatever the drain after the kill collected; the
    result of a normal completion has both keys. *)
Theorem execute_command_timeout_output (w : World) (r : option string)
    (p : Process) (e : exn) :
  _validate_command st command = Ret (true, r) ->
  spawned = Ret p ->
  wait_for_communicate os p bound = Raise e ->
  is_timeout e = true ->
  (exists d,
     outcome call w = Ret d
     /\ d !! "output" = Some (VStr EmptyString)
     /\ d !! "stdout" = None
     /\ d !! "stderr" = None
     /\ (forall drained,
           process_kill os p = Ret tt ->
           communicate os p = Ret drained ->
           d = error_result (VStr (timeout_message bound))))
  /\
  (forall out err rc,
     completed_result st out err rc !! "stdout" = Some (VStr (truncate st out))
     /\ completed_result st out err rc !! "stderr"
        = Some (VStr (truncate st err))).
Proof.
  intros Hv Hs Hw Ht. split; [| done]. unfold outcome.
  destruct (process_kill os p) as [[]|e'] eqn:Hk.
  2:{ rewrite (exec_timeout_kill_fails _ _ _ _ _ _ _ _ _ _ _ _ Hv Hs Hw Ht Hk).
      eexists. repeat split; done. }
  destruct (communicate os p) as [drained|e'] eqn:Hd.
  2:{ rewrite (exec_timeout_drain_fails _ _ _ _ _ _ _ _ _ _ _ _ Hv Hs Hw Ht Hk Hd).
      eexists. repeat split; done. }
  rewrite (exec_timeout_killed _ _ _ _ _ _ _ _ _ _ _ _ Hv Hs Hw Ht Hk Hd).
  eexists. repeat split; done.
Qed.

End ExecuteProperties.

(** ** [execute_command] on concrete runs *)

(** C1, at the failing input: the command passes validation, the
    process 4242 is spawned and registered, and the bounded wait raises
    an exception that is not a timeout.  The call returns the error
    result and the registry entry is gone, as on every path
    ([exec_deregisters]), but the process was neither killed nor waited
    for: it is still [Running] in the process table, with no registry
    entry left that refers to it. *)
Theorem execute_command_abandons_process :
  outcome (execute_command default_settings os_wait_fails
             "cat /dev/zero" "default" None None None) idle
  = Ret (error_result (VStr EmptyString))
  /\ active_processes
       (state_after (execute_command default_settings os_wait_fails
                       "cat /dev/zero" "default" None None None) idle)
     !! execution_id os_wait_fails "default" = None
  /\ active_processes
       (state_after (execute_command default_settings os_wait_fails
                       "cat /dev/zero" "default" None None None) idle)
     = ∅
  /\ proc_table
       (state_after (execute_command default_settings os_wait_fails
                       "cat /dev/zero" "default" None None None) idle)
     !! 4242%Z = Some Running.
Proof. repeat split; vm_compute; reflexivity. Qed.

(** C2 as stated fails: the spawn raises an exception whose text is
    empty, and the error of the result is the empty string. *)
Lemma execute_command_empty_error_text :
  exists d,
    outcome (execute_command default_settings os_spawn_fails
               "ls" "default" None None None) idle = Ret d
    /\ d !! "success" = Some (VBool false)
    /\ d !! "exit_code" = Some (VInt (-1))
    /\ d !! "error" = Some (VStr EmptyString)
    /\ ~ (exists msg, d !! "error" = Some (VStr msg) /\ msg <> EmptyString).
Proof.
  exists (error_result (VStr EmptyString)).
  repeat split; try (vm_compute; reflexivity).
  intros (msg & H & Hne). vm_compute in H. congruence.
Qed.

Lemma execute_command_result_invariant_witness :
  exists d,
    outcome (execute_command default_settings os_prints_hello
               "echo hello world" "default" None None None) idle = Ret d
    /\ d !! "success" = Some (VBool (0 =? 0)%Z)
    /\ ((0 =? 0)%Z = true <-> 0%Z = 0%Z)
    /\ d !! "exit_code" = Some (VInt 0).
Proof.
  apply (proj1 (execute_command_result_invariant default_settings
                  os_prints_hello "echo hello world" "default" None None None
                  idle)
           None {| pid := 7 |} "hello world" EmptyString 0%Z);
    reflexivity.
Defined.

(** C3 as stated fails: with a cap of five characters the eleven
    characters of stdout are cut to five and the marker is appended,
    but the result has no [truncated] key, so it is not set to true. *)
Lemma execute_command_no_truncated_flag :
  exists d,
    outcome (execute_command (settings_with_cap 5) os_prints_hello
               "echo hello world" "default" None None None) idle = Ret d
    /\ d !! "stdout" = Some (VStr ("hello" +:+ truncation_marker))
    /\ d !! "truncated" = None
    /\ d !! "truncated" <> Some (VBool true).
Proof.
  eexists. split; [vm_compute; reflexivity |].
  repeat split; try (vm_compute; reflexivity). vm_compute. discriminate.
Qed.

Lemma execute_command_truncation_witness :
  truncate (settings_with_cap 5) "hello world"
  = Py.slice_to "hello world" 5 +:+ truncation_marker
  /\ ((0 <= 5)%Z ->
      Py.len (Py.slice_to "hello world" 5) = 5%Z
      /\ String.prefix (Py.slice_to "hello world" 5) "hello world" = true).
Proof.
  apply (proj1 (execute_command_truncation (settings_with_cap 5)
                  os_prints_hello "echo hello world" "default" None None None
                  idle) "hello world").
  reflexivity.
Defined.



(** With no drain that blocks, [execute_command_run] is
    [execute_command]. *)
Lemma execute_command_run_never_blocks (st : Settings) (os : Os)
    (blocks : Process -> bool) (command session_id : string)
    (working_dir : option string) (env : option (gmap string string))
    (timeout : option Z) (w : World) :
  (forall p, blocks p = false) ->
  execute_command_run st os blocks command session_id working_dir env timeout w
  = Done (outcome (execute_command st os command session_id working_dir env
                     timeout) w)
      (state_after (execute_command st os command session_id working_dir env
                      timeout) w).
Proof.
  intros Hb. unfold outcome, state_after.
  unfold execute_command_run, execute_command, RunM.bind, RunM.of_M,
    RunM.try_except, RunM.try_finally, RunM.try_except_when, RunM.ret,
    SM.bind, SM.lift, SM.modify, SM.ret, SM.try_except, SM.try_finally,
    SM.try_except_when, spawn, do_wait_for_communicate, do_kill,
    do_communicate_unbounded, do_communicate, effect.
  destruct (_validate_command st command) as [[[] reason]|e]; simpl;
    try done.
  destruct (create_subprocess_shell os command _ _) as [p|e]; simpl;
    [| done].
  destruct (wait_for_communicate os p _) as [[[out err] rc]|e]; simpl;
    [done |].
  destruct (is_timeout e); [| done].
  destruct (process_kill os p) as [[]|e']; simpl; [| done].
  rewrite Hb. by destruct (communicate os p).
Qed.

(** A run that hangs: the bound expires, the kill returns and the drain
    never completes; the entry of the execution is still registered. *)
Example execute_command_run_hangs :
  execute_command_run default_settings os_times_out (fun _ => true)
    "find / -name core" "default" None None (Some 1%Z) idle
  = Hangs {| active_processes :=
               {[ "default_1700000000.25" := {| pid := 77 |} ]};
             proc_table := {[ 77%Z := Killed ]} |}.
Proof. vm_compute. reflexivity. Qed.

Lemma execute_command_timeout_output_witness :
  exists d,
    outcome (execute_command default_settings os_times_out
               "find / -name core" "default" None None (Some 1%Z)) idle = Ret d
    /\ d !! "output" = Some (VStr EmptyString)
    /\ d !! "stdout" = None
    /\ d !! "stderr" = None
    /\ (forall drained,
          process_kill os_times_out {| pid := 77 |} = Ret tt ->
          communicate os_times_out {| pid := 77 |} = Ret drained ->
          d = error_result (VStr (timeout_message 1))).
Proof.
  apply (proj1 (execute_command_timeout_output default_settings os_times_out
                  "find / -name core" "default" None None (Some 1%Z) idle None
                  {| pid := 77 |} (Exn TimeoutError EmptyString)
                  eq_refl eq_refl eq_refl eq_refl)).
Defined.

(** ** Interactive sessions *)

Lemma send_to_session_unknown (os : Os) (session_id input_data : string)
    (w : World) :
  active_processes w !! session_id = None ->
  send_to_session os session_id input_data w = (Ret None, w).
Proof.
  intros H. unfold send_to_session, SM.bind, SM.registry_lookup. by rewrite H.
Qed.

Lemma kill_session_unknown (os : Os) (session_id : string) (w : World) :
  active_processes w !! session_id = None ->
  kill_session os session_id w = (Ret false, w).
Proof.
  intros H. unfold kill_session, SM.bind, SM.registry_lookup. by rewrite H.
Qed.

(** The three ways a kill of a registered session ends. *)
Lemma kill_session_known (os : Os) (session_id : string) (w : World)
    (p : Process) :
  active_processes w !! session_id = Some p ->
  kill_session os session_id w =
    match process_kill os p with
    | Raise _ => (Ret false, w)
    | Ret _ =>
        match communicate os p with
        | Raise _ => (Ret false, set_status p Killed w)
        | Ret _ =>
            (Ret true,
             unregister session_id
               (set_status p Reaped (set_status p Killed w)))
        end
    end.
Proof.
  intros H.
  unfold kill_session, SM.bind, SM.registry_lookup, SM.try_except,
    SM.try_except_when, SM.modify, SM.ret, do_kill, do_communicate, effect.
  rewrite H. destruct (process_kill os p) as [[]|e]; [| done].
  by destruct (communicate os p).
Qed.

(** C4, as amended: [create_interactive_session] does not look the id
    up.  When the spawn succeeds it returns the success result and the
    registry maps the id to the new process, whether or not the id was
    present before; it returns an error result, leaving the state as it
    was, exactly when the spawn raises. *)
Theorem create_interactive_session_registers (os : Os)
    (session_id shell : string) (w : World) :
  (forall p,
     create_subprocess_exec os shell = Ret p ->
     outcome (create_interactive_session os session_id shell) w
     = Ret {[ "success" := VBool true;
              "session_id" := VStr session_id;
              "pid" := VInt (pid p) ]}
     /\ active_processes
          (state_after (create_interactive_session os session_id shell) w)
        = <[session_id := p]> (active_processes w)
     /\ proc_table
          (state_after (create_interactive_session os session_id shell) w)
        = <[pid p := Running]> (proc_table w))
  /\
  (forall e,
     create_subprocess_exec os shell = Raise e ->
     outcome (create_interactive_session os session_id shell) w
     = Ret {[ "success" := VBool false; "error" := VStr (exn_str e) ]}
     /\ state_after (create_interactive_session os session_id shell) w = w).
Proof.
  unfold outcome, state_after, create_interactive_session, SM.try_except,
    SM.try_except_when, SM.bind, SM.modify, SM.ret, spawn.
  split.
  - intros p H. by rewrite H.
  - intros e H. by rewrite H.
Qed.

Lemma create_interactive_session_registers_witness :
  outcome (create_interactive_session os_spawns_200 "s2" "/bin/bash") one_session
  = Ret {[ "success" := VBool true;
           "session_id" := VStr "s2";
           "pid" := VInt (pid {| pid := 200 |}) ]}
  /\ active_processes
       (state_after (create_interactive_session os_spawns_200 "s2" "/bin/bash")
          one_session)
     = <["s2" := {| pid := 200 |}]> (active_processes one_session)
  /\ proc_table
       (state_after (create_interactive_session os_spawns_200 "s2" "/bin/bash")
          one_session)
     = <[pid {| pid := 200 |} := Running]> (proc_table one_session).
Proof.
  apply (proj1 (create_interactive_session_registers os_spawns_200
                  "s2" "/bin/bash" one_session) {| pid := 200 |}).
  reflexivity.
Defined.

(** C4 as stated fails: the id [s1] is registered on process 100; a
    second creation under [s1] succeeds and the entry now holds process
    200, while process 100 is still running. *)
Lemma create_interactive_session_replaces_entry :
  active_processes one_session !! "s1" = Some {| pid := 100 |}
  /\ (exists d,
        outcome (create_interactive_session os_spawns_200 "s1" "/bin/bash")
          one_session = Ret d
        /\ d !! "success" = Some (VBool true)
        /\ d !! "error" = None)
  /\ active_processes
       (state_after (create_interactive_session os_spawns_200 "s1" "/bin/bash")
          one_session) !! "s1" = Some {| pid := 200 |}
  /\ proc_table
       (state_after (create_interactive_session os_spawns_200 "s1" "/bin/bash")
          one_session) !! 100%Z = Some Running.
Proof.
  split; [vm_compute; reflexivity |]. split.
  - eexists. split; [vm_compute; reflexivity |].
    split; vm_compute; reflexivity.
  - split; vm_compute; reflexivity.
Qed.

(** C8: a kill of an id that is not registered returns false.  A kill
    that returns true was on a registered id and removes exactly that
    entry, so that afterwards a send to the id returns [None] and a
    second kill returns false; none of these calls raises. *)
Theorem kill_session_removes_entry (os os' os'' : Os)
    (session_id input_data : string) (w : World) :
  (active_processes w !! session_id = None ->
   kill_session os session_id w = (Ret false, w))
  /\
  (exists b, outcome (kill_session os session_id) w = Ret b)
  /\
  (outcome (kill_session os session_id) w = Ret true ->
   is_Some (active_processes w !! session_id)
   /\ active_processes (state_after (kill_session os session_id) w)
      = delete session_id (active_processes w)
   /\ active_processes (state_after (kill_session os session_id) w)
      !! session_id = None
   /\ send_to_session os' session_id input_data
        (state_after (kill_session os session_id) w)
      = (Ret None, state_after (kill_session os session_id) w)
   /\ kill_session os'' session_id
        (state_after (kill_session os session_id) w)
      = (Ret false, state_after (kill_session os session_id) w)).
Proof.
  split; [apply kill_session_unknown |].
  unfold outcome, state_after.
  destruct (active_processes w !! session_id) as [p|] eqn:E.
  2:{ rewrite (kill_session_unknown _ _ _ E). split; [by eexists | done]. }
  rewrite (kill_session_known _ _ _ _ E).
  destruct (process_kill os p) as [[]|e]; [| split; [by eexists | done]].
  destruct (communicate os p) as [drained|e]; [| split; [by eexists | done]].
  split; [by eexists |]. intros _.
  assert (active_processes
            (unregister session_id (set_status p Reaped (set_status p Killed w)))
          !! session_id = None) as Hgone by apply lookup_delete_eq.
  split; [by eexists |]. split; [done |]. split; [done |].
  split; [by apply send_to_session_unknown | by apply kill_session_unknown].
Qed.

Lemma kill_session_removes_entry_witness :
  is_Some (active_processes one_session !! "s1")
  /\ active_processes (state_after (kill_session os_spawns_200 "s1") one_session)
     = delete "s1" (active_processes one_session)
  /\ active_processes (state_after (kill_session os_spawns_200 "s1") one_session)
     !! "s1" = None
  /\ send_to_session os_spawns_200 "s1" "ls"
       (state_after (kill_session os_spawns_200 "s1") one_session)
     = (Ret None, state_after (kill_session os_spawns_200 "s1") one_session)
  /\ kill_session os_spawns_200 "s1"
       (state_after (kill_session os_spawns_200 "s1") one_session)
     = (Ret false, state_after (kill_session os_spawns_200 "s1") one_session).
Proof.
  apply (proj2 (proj2 (kill_session_removes_entry os_spawns_200 os_spawns_200
                         os_spawns_200 "s1" "ls" one_session))).
  vm_compute. reflexivity.
Defined.

(** ** The file-tree walk *)

Lemma build_tree_below_bound (fs : Fs) (ignore_patterns : list string)
    (max_depth depth : Z) (p : Path) :
  (depth >= max_depth)%Z ->
  build_tree fs ignore_patterns max_depth p depth = Ret None.
Proof.
  intros H. unfold build_tree.
  by replace (Z.to_nat (max_depth - depth)) with O by lia.
Qed.

(** The body of [build_tree] in terms of [depth], as the source has
    it. *)
Lemma build_tree_step (fs : Fs) (ignore_patterns : list string)
    (max_depth depth : Z) (p : Path) :
  (depth < max_depth)%Z ->
  build_tree fs ignore_patterns max_depth p depth =
    ExcM.bind (is_dir fs p) (fun d =>
    let result := base_node p d in
    if d then
      ExcM.try_except_when is_permission
        (ExcM.bind (iterdir fs p) (fun names =>
         ExcM.bind
           (collect_children ignore_patterns
              (fun item =>
                 build_tree fs ignore_patterns max_depth
                   (p ++ [item])%list (depth + 1))
              (sorted names))
           (fun children => Ret (Some (with_children result children None)))))
        (fun _ =>
           Ret (Some (with_children result [] (Some "Permission denied"))))
    else Ret (Some (add_file_info fs p result))).
Proof.
  intros H. unfold build_tree.
  replace (Z.to_nat (max_depth - depth))
    with (S (Z.to_nat (max_depth - (depth + 1)))) by lia.
  reflexivity.
Qed.

Lemma insert_sorted_In (x y : string) (l : list string) :
  In y (insert_sorted x l) <-> y = x \/ In y l.
Proof.
  induction l as [|z l IH]; simpl.
  - intuition.
  - destruct (String.leb x z); simpl; [intuition |].
    rewrite IH. intuition.
Qed.

Lemma sorted_In (y : string) (l : list string) :
  In y (sorted l) <-> In y l.
Proof.
  induction l as [|x l IH]; simpl; [done |].
  rewrite insert_sorted_In, IH. intuition.
Qed.


Lemma add_file_info_fields (fs : Fs) (p : Path) (result : tree) :
  node_name (add_file_info fs p result) = node_name result
  /\ node_path (add_file_info fs p result) = node_path result
  /\ node_type (add_file_info fs p result) = node_type result
  /\ node_children (add_file_info fs p result) = node_children result.
Proof.
  unfold add_file_info. destruct (stat fs p) as [s|]; [| done].
  by destruct (isoformat_of_timestamp fs (st_mtime s)).
Qed.




(** ** Sample runs of the tokenizer and of the validator *)

Example split_plain :
  Shlex.split "ls -la  /tmp" = Ret ["ls"; "-la"; "/tmp"].
Proof. reflexivity. Qed.

Example split_quotes :
  Shlex.split "echo 'a b' e\ f 'x'\''y' ''" = Ret ["echo"; "a b"; "e f"; "x'y"; EmptyString].
Proof. reflexivity. Qed.

Example split_unbalanced :
  Shlex.split "echo 'oops" = Raise (Exn ValueError "No closing quotation").
Proof. reflexivity. Qed.

Example split_trailing_escape :
  Shlex.split "echo \" = Raise (Exn ValueError "No escaped character").
Proof. reflexivity. Qed.

Example validate_path_qualified :
  _validate_command default_settings "/usr/bin/python -V" = Ret (true, None).
Proof. reflexivity. Qed.

Example validate_forbidden :
  _validate_command default_settings "sudo ls"
  = Ret (false, Some "Command contains forbidden pattern: sudo").
Proof. reflexivity. Qed.

Example str_of_int_neg : Py.str_of_int (-5) = "-5".
Proof. reflexivity. Qed.

Example timeout_message_default :
  timeout_message (effective_timeout default_settings None)
  = "Command timed out after 30 seconds".
Proof. reflexivity. Qed.

Example effective_timeout_zero :
  effective_timeout default_settings (Some 0%Z) = 30%Z.
Proof. reflexivity. Qed.

Example truncate_at_cap :
  truncate (settings_with_cap 11) "hello world" = "hello world".
Proof. reflexivity. Qed.

(** ** The order on names *)

Lemma string_compare_trans (a b c : string) :
  String.compare a b <> Gt -> String.compare b c <> Gt ->
  String.compare a c <> Gt.
Proof.
  revert b c; induction a as [|x a IH]; intros [|y b] [|z c]; simpl;
    try done.
  unfold Ascii.compare.
  destruct (N.compare_spec (N_of_ascii x) (N_of_ascii y)) as [Exy|Lxy|Gxy];
    try done;
    destruct (N.compare_spec (N_of_ascii y) (N_of_ascii z)) as [Eyz|Lyz|Gyz];
    try done;
    destruct (N.compare_spec (N_of_ascii x) (N_of_ascii z)) as [Exz|Lxz|Gxz];
    try done; try lia.
  apply IH.
Qed.

Lemma string_leb_trans (a b c : string) :
  String.leb a b = true -> String.leb b c = true -> String.leb a c = true.
Proof.
  unfold String.leb. intros Hab Hbc.
  pose proof (string_compare_trans a b c) as H.
  destruct (String.compare a b), (String.compare b c), (String.compare a c);
    try done; exfalso; by apply H.
Qed.

Lemma insert_sorted_ascending (x : string) (l : list string) :
  ascending l -> ascending (insert_sorted x l).
Proof.
  unfold ascending. induction 1 as [|y l Hl IH Hy]; simpl.
  - repeat constructor.
  - destruct (String.leb x y) eqn:E.
    + constructor; [by constructor |]. constructor; [done |].
      eapply Forall_impl; [exact Hy |]. intros z Hz. simpl in Hz.
      by eapply string_leb_trans.
    + constructor; [done |]. apply Forall_forall. intros z Hz.
      apply list_elem_of_In in Hz.
      apply (proj1 (insert_sorted_In x z l)) in Hz as [-> | Hz].
      * destruct (String.leb_total x y) as [H|H]; congruence.
      * rewrite Forall_forall in Hy. by apply Hy, list_elem_of_In.
Qed.

Lemma sorted_ascending (l : list string) : ascending (sorted l).
Proof.
  induction l as [|x l IH]; simpl; [constructor |].
  by apply insert_sorted_ascending.
Qed.

Lemma filter_ascending (f : string -> bool) (l : list string) :
  ascending l -> ascending (List.filter f l).
Proof.
  unfold ascending. induction 1 as [|y l Hl IH Hy]; simpl; [constructor |].
  destruct (f y); [| done]. constructor; [done |].
  apply Forall_forall. intros z Hz. apply list_elem_of_In in Hz.
  apply filter_In in Hz as [Hz _].
  rewrite Forall_forall in Hy. by apply Hy, list_elem_of_In.
Qed.

Lemma visited_ascending (ignore_patterns names : list string) :
  ascending (visited ignore_patterns names).
Proof. apply filter_ascending, sorted_ascending. Qed.

Lemma visited_In (ignore_patterns names : list string) (item : string) :
  In item (visited ignore_patterns names) <->
  In item names /\ should_ignore ignore_patterns item = false.
Proof.
  unfold visited. rewrite filter_In, sorted_In, negb_true_iff. done.
Qed.

(** ** The loop over the entries of a directory *)

(** The children collected by the loop are the nodes returned by the
    visits of the entries that are not ignored, in the order of the
    visits, those that returned [None] left out. *)
Lemma collect_children_spec (ignore_patterns : list string)
    (visit : string -> Exc (option tree)) (items : list string)
    (cs : list tree) :
  collect_children ignore_patterns visit items = Ret cs ->
  exists rs,
    Forall2 (fun item r => visit item = Ret r)
      (List.filter (fun item => negb (should_ignore ignore_patterns item)) items)
      rs
    /\ cs = omap id rs.
Proof.
  revert cs; induction items as [|x items IH]; intros cs H; simpl in *.
  - injection H as <-. exists []. split; [constructor | done].
  - destruct (should_ignore ignore_patterns x); simpl; [by apply IH |].
    destruct (visit x) as [child|] eqn:Ex; [| done]. simpl in H.
    destruct (collect_children ignore_patterns visit items) as [cs'|];
      [| done].
    simpl in H. injection H as <-.
    destruct (IH cs' eq_refl) as (rs & Hrs & ->).
    exists (child :: rs). split; [by constructor |].
    by destruct child.
Qed.

(** Induction on the walk: a property of the returned nodes holds if it
    holds of a leaf, of a directory reported as denied, and of a
    directory whose children come from visits that satisfy it. *)
Lemma build_tree_at_ind (fs : Fs) (ignore_patterns : list string)
    (P : nat -> Path -> tree -> Prop) :
  (forall k p,
     is_dir fs p = Ret false ->
     P (S k) p (add_file_info fs p (base_node p false))) ->
  (forall k p,
     is_dir fs p = Ret true ->
     P (S k) p
       (with_children (base_node p true) [] (Some "Permission denied"))) ->
  (forall k p names rs,
     is_dir fs p = Ret true ->
     iterdir fs p = Ret names ->
     Forall2
       (fun item r =>
          build_tree_at fs ignore_patterns k (p ++ [item])%list = Ret r
          /\ forall c, r = Some c -> P k (p ++ [item])%list c)
       (visited ignore_patterns names) rs ->
     P (S k) p (with_children (base_node p true) (omap id rs) None)) ->
  forall n p t,
    build_tree_at fs ignore_patterns n p = Ret (Some t) -> P n p t.
Proof.
  intros Hleaf Hdenied Hdir. induction n as [|k IH]; intros p t H; [done |].
  simpl in H. destruct (is_dir fs p) as [[]|] eqn:Ed; simpl in H; [| | done].
  - destruct (iterdir fs p) as [names|e] eqn:En; simpl in H.
    + destruct (collect_children _ _ (sorted names)) as [cs|e] eqn:Ec;
        simpl in H.
      * injection H as <-.
        destruct (collect_children_spec _ _ _ _ Ec) as (rs & Hrs & ->).
        apply Hdir with names; [done | done |].
        eapply Forall2_impl; [exact Hrs |]. simpl. intros item r Hr.
        split; [done |]. intros c ->. by apply IH.
      * destruct (is_permission e); [| done]. injection H as <-.
        by apply Hdenied.
    + destruct (is_permission e); [| done]. injection H as <-.
      by apply Hdenied.
  - injection H as <-. by apply Hleaf.
Qed.

Lemma add_file_info_children (fs : Fs) (p : Path) (result : tree) :
  node_children (add_file_info fs p result) = node_children result.
Proof. apply add_file_info_fields. Qed.

Lemma add_file_info_height (fs : Fs) (p : Path) (d : bool) :
  tree_height (add_file_info fs p (base_node p d)) = 1.
Proof.
  unfold add_file_info. destruct (stat fs p) as [s|]; [| done].
  by destruct (isoformat_of_timestamp fs (st_mtime s)).
Qed.

Lemma build_tree_at_name (fs : Fs) (ignore_patterns : list string)
    (n : nat) (p : Path) (t : tree) :
  build_tree_at fs ignore_patterns n p = Ret (Some t) ->
  node_name t = path_name p /\ node_path t = path_str p.
Proof.
  revert n p t.
  apply (build_tree_at_ind fs ignore_patterns
           (fun _ p t => node_name t = path_name p /\ node_path t = path_str p)).
  - intros k p _.
    destruct (add_file_info_fields fs p (base_node p false)) as (-> & -> & _).
    done.
  - done.
  - done.
Qed.

Lemma path_name_snoc (p : Path) (item : string) :
  path_name (p ++ [item])%list = item.
Proof. apply List.last_last. Qed.

Lemma omap_id_Forall {A} (P : A -> Prop) (rs : list (option A)) :
  Forall (fun r => forall c, r = Some c -> P c) rs -> Forall P (omap id rs).
Proof.
  induction 1 as [|r rs Hr _ IH]; simpl; [constructor |].
  destruct r as [c|]; simpl; [| done]. constructor; [by apply Hr | done].
Qed.

Lemma Forall2_right {A B} (R : A -> B -> Prop) (Q : B -> Prop)
    (l : list A) (rs : list B) :
  Forall2 R l rs -> (forall a b, R a b -> Q b) -> Forall Q rs.
Proof. induction 1; intros HQ; constructor; eauto. Qed.

(** ** What the walk returns *)

Lemma max_height_bound (k : nat) (cs : list tree) :
  Forall (fun c => tree_height c <= k) cs ->
  (fix max_height (l : list tree) : nat :=
     match l with
     | [] => 0
     | c :: rest => Nat.max (tree_height c) (max_height rest)
     end) cs <= k.
Proof. induction 1; simpl; lia. Qed.

Lemma build_tree_some_above (fs : Fs) (ignore_patterns : list string)
    (max_depth depth : Z) (p : Path) (t : tree) :
  build_tree fs ignore_patterns max_depth p depth = Ret (Some t) ->
  (depth < max_depth)%Z.
Proof.
  intros H. destruct (Z.lt_ge_cases depth max_depth) as [|Hge]; [done |].
  rewrite build_tree_below_bound in H by lia. done.
Qed.

(** X1: the walk returns a node only above the depth bound, and the
    tree it returns has at most [max_depth - depth] levels: no node
    lies at depth [max_depth] or deeper. *)
Theorem build_tree_height (fs : Fs) (ignore_patterns : list string)
    (max_depth depth : Z) (p : Path) (t : tree) :
  build_tree fs ignore_patterns max_depth p depth = Ret (Some t) ->
  (depth < max_depth)%Z
  /\ (Z.of_nat (tree_height t) <= max_depth - depth)%Z.
Proof.
  intros H. pose proof (build_tree_some_above _ _ _ _ _ _ H) as Hlt.
  split; [done |]. unfold build_tree in H.
  assert (tree_height t <= Z.to_nat (max_depth - depth)); [| lia].
  revert H. generalize (Z.to_nat (max_depth - depth)). intros n. revert n p t.
  apply (build_tree_at_ind fs ignore_patterns
           (fun n _ t => tree_height t <= n)).
  - intros k p _. rewrite add_file_info_height. lia.
  - intros k p _. simpl. lia.
  - intros k p names rs _ _ Hrs.
    simpl. apply le_n_S, max_height_bound, omap_id_Forall.
    eapply Forall2_right; [exact Hrs |]. simpl. intros item r [_ Hr]. exact Hr.
Qed.

Lemma build_tree_height_witness :
  (0 < 2)%Z /\ (Z.of_nat (tree_height nested_tree) <= 2 - 0)%Z.
Proof.
  apply (build_tree_height nested_fs default_ignore_patterns 2 0 ["proj"]).
  vm_compute. reflexivity.
Defined.

Lemma Forall2_In_l {A B} (R : A -> B -> Prop) (l : list A) (rs : list B) :
  Forall2 R l rs -> Forall2 (fun a b => In a l /\ R a b) l rs.
Proof.
  induction 1 as [|a b l rs Hab _ IH]; constructor.
  - split; [by left | done].
  - eapply Forall2_impl; [exact IH |]. simpl. intros a' b' [Hin HR].
    split; [by right | done].
Qed.

Lemma leaf_every_node (fs : Fs) (p : Path) (P : tree -> Prop) :
  P (add_file_info fs p (base_node p false)) ->
  every_node P (add_file_info fs p (base_node p false)).
Proof.
  intros HP. constructor; [done |]. intros cs Hcs.
  rewrite add_file_info_children in Hcs. done.
Qed.

(** The nodes collected for a directory, from what is known of each
    visit. *)
Lemma visits_Forall (fs : Fs) (ignore_patterns : list string) (k : nat)
    (p : Path) (names : list string) (rs : list (option tree))
    (P Q : tree -> Prop) :
  Forall2
    (fun item r =>
       build_tree_at fs ignore_patterns k (p ++ [item])%list = Ret r
       /\ forall c, r = Some c -> P c)
    (visited ignore_patterns names) rs ->
  (forall item c,
     In item names -> should_ignore ignore_patterns item = false ->
     node_name c = item -> P c -> Q c) ->
  Forall Q (omap id rs).
Proof.
  intros Hrs HQ. apply omap_id_Forall.
  eapply Forall2_right; [exact (Forall2_In_l _ _ _ Hrs) |].
  simpl. intros item r (Hin & Hb & HP) c ->.
  apply visited_In in Hin as [Hin Hign].
  apply (HQ item c Hin Hign); [| by apply HP].
  destruct (build_tree_at_name _ _ _ _ _ Hb) as [-> _]. apply path_name_snoc.
Qed.

(** X2: at every level of the returned tree, no child has a name in
    which an ignore pattern occurs. *)
Theorem build_tree_skips_ignored (fs : Fs) (ignore_patterns : list string)
    (max_depth depth : Z) (p : Path) (t : tree) :
  build_tree fs ignore_patterns max_depth p depth = Ret (Some t) ->
  every_node
    (fun n =>
       forall cs, node_children n = Some cs ->
       Forall (fun c => should_ignore ignore_patterns (node_name c) = false) cs)
    t.
Proof.
  unfold build_tree. generalize (Z.to_nat (max_depth - depth)). intros n.
  revert n p t.
  apply (build_tree_at_ind fs ignore_patterns (fun _ _ t => every_node _ t)).
  - intros k p _. apply leaf_every_node. intros cs Hcs.
    rewrite add_file_info_children in Hcs. done.
  - intros k p _. constructor; intros cs [= <-]; constructor.
  - intros k p names rs _ _ Hrs. constructor; intros cs [= <-].
    + apply (visits_Forall _ _ _ _ _ _ _ _ Hrs).
      intros item c _ Hign -> _. exact Hign.
    + apply (visits_Forall _ _ _ _ _ _ _ _ Hrs). by intros item c _ _ _ H.
Qed.

Lemma build_tree_skips_ignored_witness :
  every_node
    (fun n =>
       forall cs, node_children n = Some cs ->
       Forall (fun c => should_ignore default_ignore_patterns (node_name c)
                        = false) cs)
    nested_tree.
Proof.
  apply (build_tree_skips_ignored nested_fs default_ignore_patterns 2 0
           ["proj"]).
  vm_compute. reflexivity.
Defined.

Lemma kept_names_ascending (l : list string) (rs : list (option tree)) :
  Forall2 (fun item r => forall c, r = Some c -> node_name c = item) l rs ->
  ascending l ->
  ascending (map node_name (omap id rs))
  /\ Forall (fun name => In name l) (map node_name (omap id rs)).
Proof.
  unfold ascending. induction 1 as [|item r l rs Hr _ IH]; intros Hs; simpl.
  - split; constructor.
  - inversion Hs as [|? ? Hs' Hle]; subst.
    destruct (IH Hs') as [IH1 IH2].
    assert (Forall (fun name => In name (item :: l))
              (map node_name (omap id rs))) as Htail.
    { eapply Forall_impl; [exact IH2 |]. simpl. auto. }
    destruct r as [c|]; simpl; [| done].
    rewrite (Hr c eq_refl). split.
    + constructor; [done |]. eapply Forall_impl; [exact IH2 |].
      simpl. intros name Hin. rewrite Forall_forall in Hle.
      by apply Hle, list_elem_of_In.
    + constructor; [by left | done].
Qed.

(** X3: at every level of the returned tree, the children are in
    ascending order of their names. *)
Theorem build_tree_children_ascending (fs : Fs)
    (ignore_patterns : list string) (max_depth depth : Z) (p : Path)
    (t : tree) :
  build_tree fs ignore_patterns max_depth p depth = Ret (Some t) ->
  every_node
    (fun n =>
       forall cs, node_children n = Some cs -> ascending (map node_name cs))
    t.
Proof.
  unfold build_tree. generalize (Z.to_nat (max_depth - depth)). intros n.
  revert n p t.
  apply (build_tree_at_ind fs ignore_patterns (fun _ _ t => every_node _ t)).
  - intros k p _. apply leaf_every_node. intros cs Hcs.
    rewrite add_file_info_children in Hcs. done.
  - intros k p _. constructor; intros cs [= <-]; constructor.
  - intros k p names rs _ _ Hrs. constructor; intros cs [= <-].
    + apply kept_names_ascending with (visited ignore_patterns names);
        [| apply visited_ascending].
      eapply Forall2_impl; [exact Hrs |]. simpl. intros item r [Hb _] c ->.
      destruct (build_tree_at_name _ _ _ _ _ Hb) as [-> _].
      apply path_name_snoc.
    + apply (visits_Forall _ _ _ _ _ _ _ _ Hrs). by intros item c _ _ _ H.
Qed.

Lemma build_tree_children_ascending_witness :
  every_node
    (fun n =>
       forall cs, node_children n = Some cs -> ascending (map node_name cs))
    nested_tree.
Proof.
  apply (build_tree_children_ascending nested_fs default_ignore_patterns 2 0
           ["proj"]).
  vm_compute. reflexivity.
Defined.

Lemma build_tree_at_visits (fs : Fs) (ignore_patterns : list string)
    (k : nat) (p : Path) (r : option tree) :
  build_tree_at fs ignore_patterns (S k) p = Ret r -> exists c, r = Some c.
Proof.
  simpl. destruct (is_dir fs p) as [[]|]; simpl; [| | done].
  - destruct (iterdir fs p) as [names|e]; simpl.
    + destruct (collect_children _ _ (sorted names)) as [cs|e]; simpl.
      * intros [= <-]. by eexists.
      * destruct (is_permission e); [| done]. intros [= <-]. by eexists.
    + destruct (is_permission e); [| done]. intros [= <-]. by eexists.
  - intros [= <-]. by eexists.
Qed.

Lemma omap_id_all_Some (l : list string) (rs : list (option tree))
    (f : string -> string) (g : tree -> string) :
  Forall2 (fun item r => exists c, r = Some c /\ g c = f item) l rs ->
  map g (omap id rs) = map f l.
Proof.
  induction 1 as [|item r l rs (c & -> & Hc) _ IH]; [done |].
  cbn. by rewrite Hc, IH.
Qed.

Lemma omap_id_all_None {A} (l : list string) (rs : list (option A)) :
  Forall2 (fun _ r => r = None) l rs -> omap id rs = [].
Proof. induction 1 as [|item r l rs -> _ IH]; [done |]. by cbn. Qed.

(** X4: when the walk of a directory returns a node without an error
    flag, the children of that node are exactly the entries of the
    listing in which no ignore pattern occurs, each once, in ascending
    order of names and with the path of the directory extended by the
    name, provided the next level is above the depth bound; at the
    depth bound the list of children is empty. *)
Theorem build_tree_children (fs : Fs) (ignore_patterns : list string)
    (max_depth depth : Z) (p : Path) (names : list string) (t : tree) :
  build_tree fs ignore_patterns max_depth p depth = Ret (Some t) ->
  is_dir fs p = Ret true ->
  iterdir fs p = Ret names ->
  node_error t = None ->
  exists cs,
    node_children t = Some cs
    /\ ((depth + 1 < max_depth)%Z ->
        map node_name cs = visited ignore_patterns names
        /\ map node_path cs
           = map (fun item => path_str (p ++ [item])%list)
               (visited ignore_patterns names))
    /\ ((depth + 1 >= max_depth)%Z -> cs = []).
Proof.
  intros H Hdir Hnames Herr.
  pose proof (build_tree_some_above _ _ _ _ _ _ H) as Hlt.
  rewrite build_tree_step in H by done.
  rewrite Hdir in H. simpl in H. rewrite Hnames in H. simpl in H.
  destruct (collect_children _ _ (sorted names)) as [cs|e] eqn:Ec; simpl in H.
  2:{ destruct (is_permission e); [| done]. injection H as <-. done. }
  injection H as <-. exists cs. split; [done |].
  destruct (collect_children_spec _ _ _ _ Ec) as (rs & Hrs & ->).
  fold (visited ignore_patterns names) in Hrs. split.
  - intros Hnext. split.
    + etransitivity; [| apply List.map_id].
      apply omap_id_all_Some. eapply Forall2_impl; [exact Hrs |]. simpl.
      intros item r Hr. unfold build_tree in Hr.
      replace (Z.to_nat (max_depth - (depth + 1)))
        with (S (Z.to_nat (max_depth - (depth + 1) - 1))) in Hr by lia.
      destruct (build_tree_at_visits _ _ _ _ _ Hr) as [c ->].
      exists c. split; [done |].
      destruct (build_tree_at_name _ _ _ _ _ Hr) as [-> _].
      apply path_name_snoc.
    + apply omap_id_all_Some. eapply Forall2_impl; [exact Hrs |]. simpl.
      intros item r Hr. unfold build_tree in Hr.
      replace (Z.to_nat (max_depth - (depth + 1)))
        with (S (Z.to_nat (max_depth - (depth + 1) - 1))) in Hr by lia.
      destruct (build_tree_at_visits _ _ _ _ _ Hr) as [c ->].
      exists c. split; [done |].
      by destruct (build_tree_at_name _ _ _ _ _ Hr) as [_ ->].
  - intros Hnext. eapply omap_id_all_None.
    eapply Forall2_impl; [exact Hrs |]. simpl. intros item r Hr.
    rewrite build_tree_below_bound in Hr by done. congruence.
Qed.

Lemma build_tree_children_witness :
  exists cs,
    node_children nested_tree = Some cs
    /\ ((0 + 1 < 2)%Z ->
        map node_name cs
        = visited default_ignore_patterns ["src"; "__pycache__"; "README"]
        /\ map node_path cs
           = map (fun item => path_str (["proj"] ++ [item])%list)
               (visited default_ignore_patterns
                  ["src"; "__pycache__"; "README"]))
    /\ ((0 + 1 >= 2)%Z -> cs = []).
Proof.
  apply (build_tree_children nested_fs default_ignore_patterns 2 0 ["proj"]
           ["src"; "__pycache__"; "README"] nested_tree);
    vm_compute; reflexivity.
Defined.

(** X5: a directory visited above the depth bound never makes the walk
    raise a [PermissionError]: when its listing raises one, the walk
    returns the node of the directory with an empty list of children
    and the error [Permission denied]. *)
Theorem build_tree_permission_denied (fs : Fs)
    (ignore_patterns : list string) (max_depth depth : Z) (p : Path) :
  (depth < max_depth)%Z ->
  is_dir fs p = Ret true ->
  (forall e,
     iterdir fs p = Raise e -> is_permission e = true ->
     build_tree fs ignore_patterns max_depth p depth
     = Ret (Some (Node (path_name p) (path_str p) "directory"
                    (Some []) (Some "Permission denied") None None)))
  /\ (forall e,
        build_tree fs ignore_patterns max_depth p depth = Raise e ->
        is_permission e = false).
Proof.
  intros Hlt Hdir. rewrite build_tree_step by done. rewrite Hdir. simpl.
  split.
  - intros e He Hp. by rewrite He; simpl; rewrite Hp.
  - intros e. destruct (ExcM.bind (iterdir fs p) _) as [r|e'] eqn:E; simpl;
      [done |].
    destruct (is_permission e') eqn:Ep; [done |]. by intros [= <-].
Qed.

Lemma build_tree_permission_denied_witness :
  (forall e,
     iterdir denied_fs ["secret"] = Raise e -> is_permission e = true ->
     build_tree denied_fs default_ignore_patterns 3 ["secret"] 0
     = Ret (Some (Node (path_name ["secret"]) (path_str ["secret"])
                    "directory" (Some []) (Some "Permission denied")
                    None None)))
  /\ (forall e,
        build_tree denied_fs default_ignore_patterns 3 ["secret"] 0 = Raise e ->
        is_permission e = false).
Proof.
  apply (build_tree_permission_denied denied_fs default_ignore_patterns 3 0
           ["secret"]).
  - lia.
  - reflexivity.
Defined.

(** ** [get_file_tree] at its edges *)

(** X6: [get_file_tree] answers a path that does not exist with the
    error [Path does not exist]; for a path that exists and a depth
    bound of zero or less it returns [None] and not a node; an empty
    list of ignore patterns selects the default patterns, as no list
    does. *)
Theorem get_file_tree_edges (fs : Fs) (path : string) (max_depth : Z)
    (root_path : Path) :
  resolve fs path = Ret root_path ->
  (path_exists_fs fs root_path = Ret false ->
   forall patterns,
     get_file_tree fs path max_depth patterns = TreeError "Path does not exist")
  /\ (path_exists_fs fs root_path = Ret true -> (max_depth <= 0)%Z ->
      forall patterns,
        get_file_tree fs path max_depth patterns = TreeResult None)
  /\ get_file_tree fs path max_depth (Some [])
     = get_file_tree fs path max_depth None.
Proof.
  intros Hr. unfold get_file_tree. rewrite Hr. simpl. split; [| split].
  - intros He patterns. by rewrite He.
  - intros He Hd patterns. rewrite He. simpl.
    by rewrite build_tree_below_bound by lia.
  - done.
Qed.

Lemma get_file_tree_edges_witness :
  (path_exists_fs nested_fs ["proj"] = Ret false ->
   forall patterns,
     get_file_tree nested_fs "/proj" 0 patterns
     = TreeError "Path does not exist")
  /\ (path_exists_fs nested_fs ["proj"] = Ret true -> (0 <= 0)%Z ->
      forall patterns,
        get_file_tree nested_fs "/proj" 0 patterns = TreeResult None)
  /\ get_file_tree nested_fs "/proj" 0 (Some [])
     = get_file_tree nested_fs "/proj" 0 None.
Proof.
  apply (get_file_tree_edges nested_fs "/proj" 0 ["proj"]). reflexivity.
Defined.

(** ** Sessions: what a call leaves alone *)

Lemma send_to_session_eq (os : Os) (session_id input_data : string)
    (w : World) :
  send_to_session os session_id input_data w
  = (Ret (match active_processes w !! session_id with
          | None => None
          | Some p =>
              match stdin_write os p input_data with
              | Raise e => if is_timeout e then Some EmptyString else None
              | Ret _ =>
                  match wait_for_read os p with
                  | Raise e => if is_timeout e then Some EmptyString else None
                  | Ret output => Some output
                  end
              end
          end), w).
Proof.
  unfold send_to_session, SM.bind, SM.registry_lookup, SM.try_except,
    SM.try_except_when, SM.lift, SM.ret.
  destruct (active_processes w !! session_id) as [p|]; [| done].
  destruct (stdin_write os p input_data) as [[]|e].
  - destruct (wait_for_read os p) as [output|e]; [done |].
    by destruct (is_timeout e).
  - by destruct (is_timeout e).
Qed.

(** X7: [send_to_session] never raises and never changes the registry
    or the process table.  It returns [None] for an id that is not
    registered and when the write or the read raises an exception that
    is not a timeout, the empty string when one of them times out, and
    the text read otherwise; the answer depends on the registry only
    through the entry of the id. *)
Theorem send_to_session_read_only (os : Os) (session_id input_data : string)
    (w : World) :
  state_after (send_to_session os session_id input_data) w = w
  /\ outcome (send_to_session os session_id input_data) w
     = Ret (match active_processes w !! session_id with
            | None => None
            | Some p =>
                match stdin_write os p input_data with
                | Raise e => if is_timeout e then Some EmptyString else None
                | Ret _ =>
                    match wait_for_read os p with
                    | Raise e => if is_timeout e then Some EmptyString else None
                    | Ret output => Some output
                    end
                end
            end)
  /\ (forall w',
        active_processes w' !! session_id = active_processes w !! session_id ->
        outcome (send_to_session os session_id input_data) w'
        = outcome (send_to_session os session_id input_data) w).
Proof.
  unfold state_after, outcome. rewrite send_to_session_eq.
  split; [done |]. split; [done |].
  intros w' Hw'. by rewrite send_to_session_eq, Hw'.
Qed.

(** X8: [kill_session] touches no entry of the registry other than the
    one of its id and no process other than the one registered under
    that id; when it returns false, also because the kill or the drain
    raised, the registry is unchanged, so that a registered session
    whose kill failed stays registered. *)
Theorem kill_session_frame (os : Os) (session_id : string) (w : World) :
  (forall other,
     other <> session_id ->
     active_processes (state_after (kill_session os session_id) w) !! other
     = active_processes w !! other)
  /\ (outcome (kill_session os session_id) w = Ret false ->
      active_processes (state_after (kill_session os session_id) w)
      = active_processes w)
  /\ (forall n,
        (forall p, active_processes w !! session_id = Some p -> pid p <> n) ->
        proc_table (state_after (kill_session os session_id) w) !! n
        = proc_table w !! n).
Proof.
  unfold state_after, outcome.
  destruct (active_processes w !! session_id) as [p|] eqn:E.
  2:{ rewrite (kill_session_unknown _ _ _ E). done. }
  rewrite (kill_session_known _ _ _ _ E).
  destruct (process_kill os p) as [[]|e]; [| done].
  destruct (communicate os p) as [drained|e]; simpl.
  - split; [| split; [done |]].
    + intros other Hne. by rewrite lookup_delete_ne.
    + intros n Hn. specialize (Hn p eq_refl).
      by rewrite !lookup_insert_ne.
  - split; [done | split; [done |]].
    intros n Hn. specialize (Hn p eq_refl). by rewrite lookup_insert_ne.
Qed.

Lemma create_session_state (os : Os) (session_id shell : string) (w : World)
    (p : Process) :
  create_subprocess_exec os shell = Ret p ->
  state_after (create_interactive_session os session_id shell) w
  = register session_id p (set_status p Running w).
Proof.
  intros H.
  unfold state_after, create_interactive_session, SM.try_except,
    SM.try_except_when, SM.bind, SM.modify, SM.ret, spawn.
  by rewrite H.
Qed.

(** X9: a session that was created can be used and killed: after a
    creation whose spawn succeeds, a send under the same id reaches the
    new process and returns what is read from it, and a kill whose kill
    and drain go through returns true, leaves the process reaped and
    leaves the registry as it was before the creation, without the
    id. *)
Theorem create_then_send_and_kill (os os' os'' : Os)
    (session_id shell input_data output : string) (w : World) (p : Process)
    (drained : string * string) :
  create_subprocess_exec os shell = Ret p ->
  stdin_write os' p input_data = Ret tt ->
  wait_for_read os' p = Ret output ->
  process_kill os'' p = Ret tt ->
  communicate os'' p = Ret drained ->
  outcome (send_to_session os' session_id input_data)
    (state_after (create_interactive_session os session_id shell) w)
  = Ret (Some output)
  /\ outcome (kill_session os'' session_id)
       (state_after (create_interactive_session os session_id shell) w)
     = Ret true
  /\ active_processes
       (state_after (kill_session os'' session_id)
          (state_after (create_interactive_session os session_id shell) w))
     = delete session_id (active_processes w)
  /\ proc_table
       (state_after (kill_session os'' session_id)
          (state_after (create_interactive_session os session_id shell) w))
     !! pid p = Some Reaped.
Proof.
  intros Hs Hw Hr Hk Hd.
  pose proof (create_session_state os session_id shell w p Hs) as Hcreate.
  remember (state_after (create_interactive_session os session_id shell) w)
    as w1 eqn:Ew1.
  assert (active_processes w1 !! session_id = Some p) as Hin.
  { rewrite Hcreate. apply lookup_insert_eq. }
  split.
  - unfold outcome. rewrite send_to_session_eq. by rewrite Hin, Hw, Hr.
  - unfold outcome, state_after.
    rewrite (kill_session_known _ _ _ _ Hin), Hk, Hd. simpl.
    split; [done |]. split; [| apply lookup_insert_eq].
    rewrite Hcreate. simpl. apply delete_insert_eq.
Qed.

Lemma create_then_send_and_kill_witness :
  outcome (send_to_session os_spawns_200 "s2" "ls")
    (state_after (create_interactive_session os_spawns_200 "s2" "/bin/bash")
       one_session)
  = Ret (Some EmptyString)
  /\ outcome (kill_session os_spawns_200 "s2")
       (state_after (create_interactive_session os_spawns_200 "s2" "/bin/bash")
          one_session)
     = Ret true
  /\ active_processes
       (state_after (kill_session os_spawns_200 "s2")
          (state_after
             (create_interactive_session os_spawns_200 "s2" "/bin/bash")
             one_session))
     = delete "s2" (active_processes one_session)
  /\ proc_table
       (state_after (kill_session os_spawns_200 "s2")
          (state_after
             (create_interactive_session os_spawns_200 "s2" "/bin/bash")
             one_session))
     !! pid {| pid := 200 |} = Some Reaped.
Proof.
  apply (create_then_send_and_kill os_spawns_200 os_spawns_200 os_spawns_200
           "s2" "/bin/bash" "ls" EmptyString one_session {| pid := 200 |}
           (EmptyString, EmptyString));
    reflexivity.
Defined.

(** ** [execute_command]: what a call leaves alone *)

Section ExecuteFrame.

Variables (st : Settings) (os : Os) (command session_id : string).
Variables (working_dir : option string) (env : option (gmap string string)).
Variables (timeout : option Z).

Local Abbreviation call :=
  (execute_command st os command session_id working_dir env timeout).
Local Abbreviation key := (execution_id os session_id).
Local Abbreviation spawned := (spawn_answer os command working_dir env).
Local Abbreviation bound := (effective_timeout st timeout).

(** The state after a call: untouched when no process was spawned;
    otherwise the registry without the execution id and a process table
    that differs at most at the pid of the spawned process. *)
Lemma exec_state_shape (w : World) :
  ((exists reason, _validate_command st command = Ret (false, reason))
   \/ (exists e, spawned = Raise e))
  /\ state_after call w = w
  \/ exists p,
       spawned = Ret p
       /\ active_processes (state_after call w) = delete key (active_processes w)
       /\ forall n, n <> pid p ->
            proc_table (state_after call w) !! n = proc_table w !! n.
Proof.
  unfold state_after.
  destruct (validate_total st command) as [Hv | (reason & Hv & _)].
  2:{ left. split; [left; eauto |]. by rewrite (exec_rejected _ _ _ _ _ _ _ _ _ Hv). }
  destruct spawned as [p|e] eqn:Hs.
  2:{ left. split; [right; eauto |].
      by rewrite (exec_spawn_fails _ _ _ _ _ _ _ _ _ _ Hv Hs). }
  right. exists p. split; [done |].
  destruct (wait_for_communicate os p bound) as [[[out err] rc]|e] eqn:Hw.
  { rewrite (exec_completed _ _ _ _ _ _ _ _ _ _ _ _ _ Hv Hs Hw). simpl.
    split; [apply delete_insert_eq |]. intros n Hn.
    by rewrite !lookup_insert_ne. }
  destruct (is_timeout e) eqn:Ht.
  2:{ rewrite (exec_wait_error _ _ _ _ _ _ _ _ _ _ _ Hv Hs Hw Ht). simpl.
      split; [apply delete_insert_eq |]. intros n Hn.
      by rewrite !lookup_insert_ne. }
  destruct (process_kill os p) as [[]|e'] eqn:Hk.
  2:{ rewrite (exec_timeout_kill_fails _ _ _ _ _ _ _ _ _ _ _ _ Hv Hs Hw Ht Hk).
      simpl. split; [apply delete_insert_eq |]. intros n Hn.
      by rewrite !lookup_insert_ne. }
  destruct (communicate os p) as [drained|e'] eqn:Hd.
  - rewrite (exec_timeout_killed _ _ _ _ _ _ _ _ _ _ _ _ Hv Hs Hw Ht Hk Hd).
    simpl. split; [apply delete_insert_eq |]. intros n Hn.
    by rewrite !lookup_insert_ne.
  - rewrite (exec_timeout_drain_fails _ _ _ _ _ _ _ _ _ _ _ _ Hv Hs Hw Ht Hk Hd).
    simpl. split; [apply delete_insert_eq |]. intros n Hn.
    by rewrite !lookup_insert_ne.
Qed.

(** The result of a call is the same from every state. *)
Lemma exec_outcome_any_state (w w' : World) :
  outcome call w' = outcome call w.
Proof.
  unfold outcome.
  destruct (validate_total st command) as [Hv | (reason & Hv & _)].
  2:{ by rewrite !(exec_rejected _ _ _ _ _ _ _ _ _ Hv). }
  destruct spawned as [p|e] eqn:Hs.
  2:{ by rewrite !(exec_spawn_fails _ _ _ _ _ _ _ _ _ _ Hv Hs). }
  destruct (wait_for_communicate os p bound) as [[[out err] rc]|e] eqn:Hw.
  { by rewrite !(exec_completed _ _ _ _ _ _ _ _ _ _ _ _ _ Hv Hs Hw). }
  destruct (is_timeout e) eqn:Ht.
  2:{ by rewrite !(exec_wait_error _ _ _ _ _ _ _ _ _ _ _ Hv Hs Hw Ht). }
  destruct (process_kill os p) as [[]|e'] eqn:Hk.
  2:{ by rewrite !(exec_timeout_kill_fails _ _ _ _ _ _ _ _ _ _ _ _ Hv Hs Hw Ht Hk). }
  destruct (communicate os p) as [drained|e'] eqn:Hd.
  - by rewrite !(exec_timeout_killed _ _ _ _ _ _ _ _ _ _ _ _ Hv Hs Hw Ht Hk Hd).
  - by rewrite !(exec_timeout_drain_fails _ _ _ _ _ _ _ _ _ _ _ _ Hv Hs Hw Ht Hk Hd).
Qed.

(** X10: [execute_command] leaves every registry entry other than the
    one of its execution id as it was, and the status of every process
    other than the one it spawned; a call whose command is rejected, or
    whose spawn raises, leaves the whole state as it was; and the
    result it returns does not depend on the sessions and processes
    that exist when it is called. *)
Theorem execute_command_frame (w : World) :
  (forall w', outcome call w' = outcome call w)
  /\ (forall other,
     other <> key ->
     active_processes (state_after call w) !! other
     = active_processes w !! other)
  /\ (forall n,
        (forall p, spawned = Ret p -> pid p <> n) ->
        proc_table (state_after call w) !! n = proc_table w !! n)
  /\ (forall reason,
        _validate_command st command = Ret (false, reason) ->
        state_after call w = w)
  /\ (forall e, spawned = Raise e -> state_after call w = w).
Proof.
  split; [intros w'; apply exec_outcome_any_state |].
  destruct (exec_state_shape w)
    as [[Hno Hsame] | (p & Hs & Hreg & Htable)].
  - rewrite Hsame. repeat split; done.
  - split; [| split; [| split]].
    + intros other Hne. rewrite Hreg. by apply lookup_delete_ne.
    + intros n Hn. apply Htable. intros ->. by apply (Hn p).
    + intros reason Hv. unfold state_after.
      by rewrite (exec_rejected _ _ _ _ _ _ _ _ _ Hv).
    + intros e He. congruence.
Qed.

(** X12: every result of [execute_command] has the keys [success],
    [output] and [exit_code], with a boolean, a string and an integer,
    and no key outside [success], [output], [exit_code], [stdout],
    [stderr] and [error]; it has the key [error] exactly when it has
    neither [stdout] nor [stderr], and [success] is false whenever
    [error] is present. *)
Theorem execute_command_result_keys (w : World) :
  exists d (ok : bool) (output : string) (code : Z),
    outcome call w = Ret d
    /\ d !! "success" = Some (VBool ok)
    /\ d !! "output" = Some (VStr output)
    /\ d !! "exit_code" = Some (VInt code)
    /\ (forall k, is_Some (d !! k) ->
          In k ["success"; "output"; "exit_code"; "stdout"; "stderr"; "error"])
    /\ (is_Some (d !! "error") <-> d !! "stdout" = None)
    /\ (d !! "stdout" = None <-> d !! "stderr" = None)
    /\ (is_Some (d !! "error") -> ok = false /\ code = (-1)%Z).
Proof.
  destruct (exec_shape st os command session_id working_dir env timeout w)
    as [(msg & H) | (r & p & out & err & rc & _ & _ & _ & H)]; rewrite H.
  - exists (error_result msg), false, EmptyString, (-1)%Z.
    split; [done |]. split; [done |]. split; [done |]. split; [done |].
    split; [| split; [| split]]; try done.
    intros k Hk. unfold error_result in Hk.
    destruct (decide (k = "success")) as [-> | ?]; [simpl; auto |].
    destruct (decide (k = "error")) as [-> | ?]; [simpl; auto 10 |].
    destruct (decide (k = "output")) as [-> | ?]; [simpl; auto |].
    destruct (decide (k = "exit_code")) as [-> | ?]; [simpl; auto |].
    rewrite !lookup_insert_ne, lookup_singleton_ne in Hk by done.
    by destruct Hk.
  - eexists (completed_result st out err rc), _, _, _.
    split; [done |]. split; [reflexivity |]. split; [reflexivity |].
    split; [reflexivity |]. split; [| split; [| split]].
    + intros k Hk. unfold completed_result in Hk.
      destruct (decide (k = "success")) as [-> | ?]; [simpl; auto |].
      destruct (decide (k = "output")) as [-> | ?]; [simpl; auto |].
      destruct (decide (k = "exit_code")) as [-> | ?]; [simpl; auto |].
      destruct (decide (k = "stdout")) as [-> | ?]; [simpl; auto 10 |].
      destruct (decide (k = "stderr")) as [-> | ?]; [simpl; auto 10 |].
      rewrite !lookup_insert_ne, lookup_singleton_ne in Hk by done.
      by destruct Hk.
    + split; [intros [x Hx]; done | done].
    + done.
    + intros [x Hx]. done.
Qed.

(** X19: the execution id is not checked against the registry.  If an
    entry is already registered under the id that the call generates,
    a call that spawns its process removes that entry when it returns,
    and the process of that entry, if it is not the one spawned, is
    left with the status it had. *)
Theorem execute_command_id_collision (w : World) (r : option string)
    (p q : Process) :
  _validate_command st command = Ret (true, r) ->
  spawned = Ret p ->
  active_processes w !! key = Some q ->
  pid q <> pid p ->
  active_processes (state_after call w) !! key = None
  /\ proc_table (state_after call w) !! pid q = proc_table w !! pid q.
Proof.
  intros Hv Hs Hq Hne.
  destruct (exec_state_shape w)
    as [[[[reason Hrej] | [e He]] _] | (p' & Hs' & Hreg & Htable)].
  - congruence.
  - congruence.
  - assert (p' = p) as -> by congruence.
    split; [rewrite Hreg; apply lookup_delete_eq | by apply Htable].
Qed.

End ExecuteFrame.

(** ** Bounds on the captured output *)

Lemma length_append (a b : string) :
  String.length (a +:+ b) = String.length a + String.length b.
Proof.
  induction a as [|c a IH]; [done |]. rewrite append_cons. simpl. by rewrite IH.
Qed.

Lemma truncate_length (st : Settings) (text : string) :
  (0 <= terminal_max_output st)%Z ->
  (Py.len (truncate st text) <= terminal_max_output st + 23)%Z.
Proof.
  intros Hcap. unfold truncate.
  destruct (Z.gtb_spec (Py.len text) (terminal_max_output st)) as [Hgt|Hle];
    [| lia].
  unfold Py.len, Py.slice_to in *.
  destruct (Z.leb_spec 0 (terminal_max_output st)); [| lia].
  rewrite length_append, take_length.
  change (String.length truncation_marker) with 23. lia.
Qed.

Lemma combine_output_length (a b : string) :
  (Py.len (combine_output a b) <= Py.len a + Py.len b + 11)%Z.
Proof.
  unfold combine_output, Py.len.
  destruct (String.eqb b EmptyString); [lia |].
  rewrite !length_append. change (String.length nl) with 1.
  change (String.length "[stderr]:") with 9. lia.
Qed.

(** X11: with a cap that is not negative, no text in a result of
    [execute_command] is unbounded: [stdout] and [stderr] have at most
    [cap + 23] characters (the cap and the marker) and [output] at most
    [2 * cap + 57], whatever the process printed. *)
Theorem execute_command_output_bounded (st : Settings) (os : Os)
    (command session_id : string) (working_dir : option string)
    (env : option (gmap string string)) (timeout : option Z) (w : World)
    (d : gmap string pyval) :
  (0 <= terminal_max_output st)%Z ->
  outcome (execute_command st os command session_id working_dir env timeout) w
  = Ret d ->
  (forall s, d !! "stdout" = Some (VStr s) ->
             (Py.len s <= terminal_max_output st + 23)%Z)
  /\ (forall s, d !! "stderr" = Some (VStr s) ->
                (Py.len s <= terminal_max_output st + 23)%Z)
  /\ (forall s, d !! "output" = Some (VStr s) ->
                (Py.len s <= 2 * terminal_max_output st + 57)%Z).
Proof.
  intros Hcap Hd.
  destruct (exec_shape st os command session_id working_dir env timeout w)
    as [(msg & H) | (r & p & out & err & rc & _ & _ & _ & H)];
    rewrite H in Hd; injection Hd as <-.
  - split; [done |]. split; [done |]. intros s Hs.
    change (error_result msg !! "output") with (Some (VStr EmptyString)) in Hs.
    injection Hs as <-. change (Py.len EmptyString) with 0%Z. lia.
  - pose proof (truncate_length st out Hcap).
    pose proof (truncate_length st err Hcap).
    pose proof (combine_output_length (truncate st out) (truncate st err)).
    split; [| split]; intros s Hs.
    + change (completed_result st out err rc !! "stdout")
        with (Some (VStr (truncate st out))) in Hs.
      by injection Hs as <-.
    + change (completed_result st out err rc !! "stderr")
        with (Some (VStr (truncate st err))) in Hs.
      by injection Hs as <-.
    + change (completed_result st out err rc !! "output")
        with (Some (VStr (combine_output (truncate st out) (truncate st err))))
        in Hs.
      injection Hs as <-. lia.
Qed.

Lemma execute_command_output_bounded_witness :
  (forall s, completed_result (settings_with_cap 5) "hello world"
               EmptyString 0 !! "stdout" = Some (VStr s) ->
             (Py.len s <= terminal_max_output (settings_with_cap 5) + 23)%Z)
  /\ (forall s, completed_result (settings_with_cap 5) "hello world"
                  EmptyString 0 !! "stderr" = Some (VStr s) ->
                (Py.len s <= terminal_max_output (settings_with_cap 5) + 23)%Z)
  /\ (forall s, completed_result (settings_with_cap 5) "hello world"
                  EmptyString 0 !! "output" = Some (VStr s) ->
                (Py.len s
                 <= 2 * terminal_max_output (settings_with_cap 5) + 57)%Z).
Proof.
  apply (execute_command_output_bounded (settings_with_cap 5) os_prints_hello
           "echo hello world" "default" None None None idle).
  - vm_compute. discriminate.
  - vm_compute. reflexivity.
Defined.

(** ** The tokenizer on words and blanks *)

Lemma run_acc (input : string) (r : Shlex.regs) (acc : list string) :
  Shlex.run input r acc =
    match Shlex.run input r [] with
    | Ret l => Ret (rev acc ++ l)%list
    | Raise e => Raise e
    end.
Proof.
  revert r acc; induction input as [|c rest IH]; intros r acc; simpl.
  - destruct (Shlex.state r); try done;
      try (destruct (Shlex.result_of r); simpl; by rewrite ?app_nil_r).
  - destruct (Shlex.step c r) as [r'|r']; [apply IH |].
    destruct (Shlex.result_of r') as [t|]; [| by rewrite app_nil_r].
    rewrite (IH _ (t :: acc)), (IH _ [t]).
    destruct (Shlex.run rest (Shlex.restart r') []) as [l|e]; [| done].
    simpl. by rewrite <- app_assoc.
Qed.


Lemma is_plain_spec (c : ascii) :
  is_plain c = true ->
  Shlex.is_whitespace c = false /\ Shlex.is_quote c = false
  /\ Shlex.is_escape c = false.
Proof.
  unfold is_plain. intros [[H1 H2]%andb_prop H3]%andb_prop.
  apply negb_true_iff in H1, H2, H3. done.
Qed.

Lemma run_word_tail (w rest tok : string) (e : Shlex.lex_state)
    (acc : list string) :
  all_chars is_plain w = true ->
  Shlex.run (w +:+ rest) (Shlex.Regs Shlex.StWord tok false e) acc
  = Shlex.run rest (Shlex.Regs Shlex.StWord (tok +:+ w) false e) acc.
Proof.
  revert tok; induction w as [|c w IH]; intros tok Hw.
  - by rewrite append_empty_r.
  - simpl in Hw. apply andb_prop in Hw as [Hc Hw].
    destruct (is_plain_spec c Hc) as (H1 & H2 & H3).
    rewrite append_cons. simpl. unfold Shlex.step. simpl.
    rewrite H1, H2, H3. rewrite (IH _ Hw). unfold Shlex.push.
    f_equal. f_equal. clear. induction tok as [|x tok IH]; [done |].
    rewrite !append_cons. by rewrite IH.
Qed.

Lemma run_word (w rest : string) (acc : list string) :
  plain_word w = true ->
  Shlex.run (w +:+ rest)
    (Shlex.Regs Shlex.StWhite EmptyString false Shlex.StWhite) acc
  = Shlex.run rest (Shlex.Regs Shlex.StWord w false Shlex.StWhite) acc.
Proof.
  unfold plain_word. intros [Hne Hw]%andb_prop.
  destruct w as [|c w]; [done |]. simpl in Hw.
  apply andb_prop in Hw as [Hc Hw].
  destruct (is_plain_spec c Hc) as (H1 & H2 & H3).
  rewrite append_cons. simpl. unfold Shlex.step. simpl. rewrite H1, H2, H3.
  by rewrite (run_word_tail w rest _ _ _ Hw).
Qed.

(** A word alone is its own single token. *)
Lemma split_word (w : string) :
  plain_word w = true -> Shlex.split w = Ret [w].
Proof.
  intros Hw. unfold Shlex.split.
  rewrite <- (append_empty_r w) at 1. rewrite (run_word _ _ _ Hw). simpl.
  unfold Shlex.result_of. simpl.
  unfold plain_word in Hw. apply andb_prop in Hw as [Hne _].
  apply negb_true_iff in Hne. by rewrite Hne.
Qed.

(** A word followed by a space is the first token, and the tokens of
    what follows come after it. *)
Lemma split_word_space (w rest : string) :
  plain_word w = true ->
  Shlex.split (w +:+ " " +:+ rest) =
    match Shlex.split rest with
    | Ret l => Ret (w :: l)
    | Raise e => Raise e
    end.
Proof.
  intros Hw. unfold Shlex.split. rewrite (run_word _ _ _ Hw).
  rewrite append_cons, append_empty_l. simpl. unfold Shlex.step. simpl.
  unfold Shlex.emit_or_continue, Shlex.result_of. simpl.
  unfold plain_word in Hw. apply andb_prop in Hw as [Hne _].
  apply negb_true_iff in Hne. rewrite Hne. simpl. rewrite Hne.
  unfold Shlex.restart. simpl. by rewrite run_acc.
Qed.

(** ** Validation: blank commands, arguments, qualified paths *)



Lemma occurs_append (p a b : string) : occurs p a -> occurs p (a +:+ b).
Proof.
  intros (pre & post & ->). exists pre, (post +:+ b).
  clear. induction pre as [|c pre IH].
  - rewrite !append_empty_l. induction p as [|c p IH]; [done |].
    rewrite !append_cons. by rewrite IH.
  - rewrite !append_cons. by rewrite IH.
Qed.

Lemma first_forbidden_prefix (st : Settings) (a b : string) :
  first_forbidden st (a +:+ b) = None -> first_forbidden st a = None.
Proof.
  rewrite !first_forbidden_None. intros H p Hin Hocc.
  apply (H p Hin). by apply occurs_append.
Qed.

Lemma check_allowed_head (st : Settings) (w : string) (l : list string) :
  check_allowed st (w :: l) = check_allowed st [w].
Proof. done. Qed.

Lemma validate_word_args (st : Settings) (w rest : string) (l : list string) :
  plain_word w = true ->
  first_forbidden st (w +:+ " " +:+ rest) = None ->
  Shlex.split rest = Ret l ->
  _validate_command st (w +:+ " " +:+ rest) = check_allowed st [w]
  /\ _validate_command st w = check_allowed st [w].
Proof.
  intros Hw Hfree Hrest. split.
  - rewrite (validate_no_forbidden _ _ Hfree).
    by rewrite (split_word_space _ _ Hw), Hrest.
  - rewrite (validate_no_forbidden _ _ (first_forbidden_prefix _ _ _ Hfree)).
    by rewrite (split_word _ Hw).
Qed.

(** X14: the allow-list constrains the first word only.  For a command
    made of a word, a space and anything that tokenizes, with no
    forbidden pattern in it, the verdict is the verdict of the word
    alone: what follows the word, further commands after a semicolon
    or a pipe included, plays no part in it. *)
Theorem validate_first_word_only (st : Settings) (w rest : string)
    (l : list string) :
  plain_word w = true ->
  first_forbidden st (w +:+ " " +:+ rest) = None ->
  Shlex.split rest = Ret l ->
  _validate_command st (w +:+ " " +:+ rest) = _validate_command st w
  /\ (_validate_command st (w +:+ " " +:+ rest) = Ret (true, None) <->
      terminal_allowed_commands st = []
      \/ In w (terminal_allowed_commands st)
      \/ In (Py.basename w) (terminal_allowed_commands st)).
Proof.
  intros Hw Hfree Hrest.
  destruct (validate_word_args st w rest l Hw Hfree Hrest) as [H1 H2].
  split; [congruence |]. rewrite H1, check_allowed_accepts. split.
  - by intros (base & r & [= <- <-] & H).
  - intros H. by exists w, [].
Qed.

Lemma validate_first_word_only_witness :
  _validate_command default_settings ("ls" +:+ " " +:+ "; rm -r ~ | tee x")
  = _validate_command default_settings "ls"
  /\ (_validate_command default_settings ("ls" +:+ " " +:+ "; rm -r ~ | tee x")
      = Ret (true, None) <->
      terminal_allowed_commands default_settings = []
      \/ In "ls" (terminal_allowed_commands default_settings)
      \/ In (Py.basename "ls") (terminal_allowed_commands default_settings)).
Proof.
  apply (validate_first_word_only default_settings "ls" "; rm -r ~ | tee x"
           [";"; "rm"; "-r"; "~"; "|"; "tee"; "x"]);
    reflexivity.
Defined.

Lemma after_last_sep_none (s acc : string) :
  all_chars not_sep s = true -> Py.after_last_sep s acc = acc.
Proof.
  revert acc; induction s as [|c s IH]; intros acc; simpl; [done |].
  intros [Hc Hs]%andb_prop. unfold not_sep in Hc.
  apply negb_true_iff in Hc. rewrite Hc. by apply IH.
Qed.

Lemma basename_join (dir name : string) :
  all_chars not_sep name = true ->
  Py.basename (dir +:+ "/" +:+ name) = name.
Proof.
  intros Hname. unfold Py.basename.
  generalize (dir +:+ "/" +:+ name) at 2. intros acc. revert acc.
  induction dir as [|c dir IH]; intros acc.
  - rewrite append_empty_l, append_cons, append_empty_l. simpl.
    by apply after_last_sep_none.
  - rewrite append_cons. simpl. destruct (Ascii.eqb c "/"); apply IH.
Qed.

(** X15: the allow-list is matched on the final path component: a
    first word of the form [dir/name] whose [name] is in the allow-list
    is accepted whatever the directory, and whatever arguments follow,
    as long as no forbidden pattern occurs in the command. *)
Theorem validate_any_directory (st : Settings) (dir name rest : string)
    (l : list string) :
  plain_word (dir +:+ "/" +:+ name) = true ->
  all_chars not_sep name = true ->
  In name (terminal_allowed_commands st) ->
  first_forbidden st ((dir +:+ "/" +:+ name) +:+ " " +:+ rest) = None ->
  Shlex.split rest = Ret l ->
  _validate_command st ((dir +:+ "/" +:+ name) +:+ " " +:+ rest)
  = Ret (true, None)
  /\ _validate_command st (dir +:+ "/" +:+ name) = Ret (true, None).
Proof.
  intros Hw Hname Hin Hfree Hrest.
  destruct (validate_word_args st _ rest l Hw Hfree Hrest) as [H1 H2].
  rewrite H1, H2.
  assert (check_allowed st [dir +:+ "/" +:+ name] = Ret (true, None));
    [| done].
  apply check_allowed_accepts. eexists _, []. split; [done |].
  right; right. by rewrite basename_join.
Qed.

Lemma validate_any_directory_witness :
  _validate_command default_settings
    (("/tmp/upload" +:+ "/" +:+ "python") +:+ " " +:+ "-c pass")
  = Ret (true, None)
  /\ _validate_command default_settings ("/tmp/upload" +:+ "/" +:+ "python")
     = Ret (true, None).
Proof.
  apply (validate_any_directory default_settings "/tmp/upload" "python"
           "-c pass" ["-c"; "pass"]);
    try reflexivity.
  simpl. auto 10.
Defined.

(** ** [cleanup] *)

Lemma cleanup_one_eq (os : Os) (p : Process) (w : World) :
  cleanup_one os p w =
    match process_kill os p with
    | Raise _ => w
    | Ret _ =>
        match communicate os p with
        | Raise _ => set_status p Killed w
        | Ret _ => set_status p Reaped (set_status p Killed w)
        end
    end.
Proof.
  unfold cleanup_one, SM.try_except, SM.try_except_when, SM.bind, SM.ret,
    do_kill, do_communicate, effect.
  destruct (process_kill os p) as [[]|e]; [| done].
  by destruct (communicate os p).
Qed.

Lemma cleanup_one_lookup (os : Os) (p : Process) (w : World) (n : Z) :
  proc_table (cleanup_one os p w) !! n =
    if decide (n = pid p)
    then match status_after_cleanup os p with
         | Some s => Some s
         | None => proc_table w !! n
         end
    else proc_table w !! n.
Proof.
  rewrite cleanup_one_eq. unfold status_after_cleanup.
  destruct (process_kill os p) as [[]|e]; [| by case_decide].
  destruct (communicate os p) as [drained|e]; simpl; case_decide; subst;
    by rewrite ?lookup_insert_eq, ?lookup_insert_ne.
Qed.

Lemma process_eq (p q : Process) : pid p = pid q -> p = q.
Proof. destruct p, q. simpl. by intros ->. Qed.

Lemma classic_pid (items : list (string * Process)) (p : Process) :
  (exists sid, In (sid, p) items)
  \/ (forall item, In item items -> pid (snd item) <> pid p).
Proof.
  induction items as [|[sid q] items IH]; [by right |].
  destruct IH as [[sid' H] | H].
  - left. exists sid'. by right.
  - destruct (decide (pid q = pid p)) as [E | Hne].
    + left. exists sid. left. by rewrite (process_eq _ _ E).
    + right. intros item [<- | Hin]; [done | by apply H].
Qed.

Lemma cleanup_processes_lookup (os : Os) (items : list (string * Process))
    (w : World) (n : Z) :
  (forall item, In item items -> pid (snd item) <> n) ->
  proc_table (cleanup_processes os items w) !! n = proc_table w !! n.
Proof.
  revert w; induction items as [|item items IH]; intros w Hn; [done |].
  change (cleanup_processes os (item :: items) w)
    with (cleanup_processes os items (cleanup_one os (snd item) w)).
  rewrite IH.
  - rewrite cleanup_one_lookup. case_decide as E; [| done].
    exfalso. apply (Hn item); [by left | done].
  - intros i Hi. apply Hn. by right.
Qed.

Lemma cleanup_processes_member (os : Os) (items : list (string * Process))
    (w : World) (p : Process) :
  (exists sid, In (sid, p) items) ->
  proc_table (cleanup_processes os items w) !! pid p =
    match status_after_cleanup os p with
    | Some s => Some s
    | None => proc_table w !! pid p
    end.
Proof.
  revert w; induction items as [|[sid q] items IH]; intros w [sid' Hin];
    [done |].
  change (cleanup_processes os ((sid, q) :: items) w)
    with (cleanup_processes os items (cleanup_one os q w)).
  destruct (classic_pid items p) as [Hlater | Hnone].
  - rewrite (IH _ Hlater). destruct (status_after_cleanup os p) eqn:Es; [done |].
    rewrite cleanup_one_lookup. case_decide as Hq; [| done].
    apply process_eq in Hq. subst q. by rewrite Es.
  - rewrite cleanup_processes_lookup by done.
    destruct Hin as [[= -> ->] | Hin].
    + rewrite cleanup_one_lookup. by rewrite decide_True.
    + exfalso. by apply (Hnone (sid', p)).
Qed.

Lemma cleanup_one_registry (os : Os) (p : Process) (w : World) :
  active_processes (cleanup_one os p w) = active_processes w.
Proof.
  rewrite cleanup_one_eq. destruct (process_kill os p) as [[]|e]; [| done].
  by destruct (communicate os p).
Qed.

(** One turn of the loop with its drain unbounded: it hangs, the
    process killed, when the kill returns and the drain blocks, and is
    the turn [cleanup_one] otherwise. *)
Lemma cleanup_one_run_eq (os : Os) (blocks : Process -> bool) (p : Process)
    (w : World) :
  cleanup_one_run os blocks p w =
    match process_kill os p with
    | Ret _ =>
        if blocks p then Hangs (set_status p Killed w)
        else Done (Ret tt) (cleanup_one os p w)
    | Raise _ => Done (Ret tt) (cleanup_one os p w)
    end.
Proof.
  rewrite cleanup_one_eq.
  unfold cleanup_one_run, RunM.try_except, RunM.try_except_when, RunM.bind,
    RunM.of_M, RunM.ret, do_kill, do_communicate_unbounded, do_communicate,
    effect.
  destruct (process_kill os p) as [[]|e]; [| done]. simpl.
  destruct (blocks p); [done |]. by destruct (communicate os p).
Qed.

Lemma cleanup_loop_run_done (os : Os) (blocks : Process -> bool)
    (items : list (string * Process)) (w : World) :
  (forall item, In item items ->
     process_kill os (snd item) = Ret tt -> blocks (snd item) = false) ->
  cleanup_loop_run os blocks items w
  = Done (Ret tt) (cleanup_processes os items w).
Proof.
  revert w; induction items as [|item items IH]; intros w Hfree; [done |].
  change (cleanup_processes os (item :: items) w)
    with (cleanup_processes os items (cleanup_one os (snd item) w)).
  simpl. unfold RunM.bind. rewrite cleanup_one_run_eq.
  assert (forall i, In i items ->
            process_kill os (snd i) = Ret tt -> blocks (snd i) = false)
    as Hrest by (intros i Hi; apply Hfree; by right).
  destruct (process_kill os (snd item)) as [[]|e] eqn:Hk.
  - rewrite (Hfree item (or_introl eq_refl) Hk). by apply IH.
  - by apply IH.
Qed.

Lemma cleanup_loop_run_hangs (os : Os) (blocks : Process -> bool)
    (items : list (string * Process)) (w : World) :
  (exists item, In item items
     /\ process_kill os (snd item) = Ret tt /\ blocks (snd item) = true) ->
  exists w',
    cleanup_loop_run os blocks items w = Hangs w'
    /\ active_processes w' = active_processes w.
Proof.
  revert w; induction items as [|item items IH]; intros w (i & Hin & Hk & Hb);
    [done |].
  simpl. unfold RunM.bind. rewrite cleanup_one_run_eq.
  destruct (process_kill os (snd item)) as [[]|e] eqn:Hk'.
  - destruct (blocks (snd item)) eqn:Hb'; [by eexists |].
    destruct Hin as [-> | Hin]; [congruence |].
    destruct (IH (cleanup_one os (snd item) w)) as (w' & Hw' & Hreg);
      [by exists i |].
    exists w'. split; [done |]. by rewrite Hreg, cleanup_one_registry.
  - destruct Hin as [-> | Hin]; [congruence |].
    destruct (IH (cleanup_one os (snd item) w)) as (w' & Hw' & Hreg);
      [by exists i |].
    exists w'. split; [done |]. by rewrite Hreg, cleanup_one_registry.
Qed.

(** X16: in whatever order the registry is visited, [cleanup] finishes
    when no drain that it reaches blocks, whatever the kills and the
    drains answer: the registry is then empty and [_ready] false, each
    registered process is reaped when its kill and drain return, killed
    when only the drain raises, and keeps its status when the kill
    raises, and no other process is touched.  When the drain of a
    registered process whose kill returns never completes, [cleanup]
    never finishes: the registry is not cleared and [_ready] keeps its
    value. *)
Theorem cleanup_clears_registry (os : Os) (blocks : Process -> bool)
    (s : Service) (items : list (string * Process)) :
  Permutation items (map_to_list (active_processes (svc_state s))) ->
  ((forall sid p,
      active_processes (svc_state s) !! sid = Some p ->
      process_kill os p = Ret tt -> blocks p = false) ->
   exists s',
     cleanup_run_in_order os blocks items s = Finished s'
     /\ active_processes (svc_state s') = ∅
     /\ is_ready s' = false
     /\ (forall sid p,
           active_processes (svc_state s) !! sid = Some p ->
           proc_table (svc_state s') !! pid p
           = match status_after_cleanup os p with
             | Some status => Some status
             | None => proc_table (svc_state s) !! pid p
             end)
     /\ (forall n,
           (forall sid p,
              active_processes (svc_state s) !! sid = Some p -> pid p <> n) ->
           proc_table (svc_state s') !! n = proc_table (svc_state s) !! n))
  /\
  ((exists sid p,
      active_processes (svc_state s) !! sid = Some p
      /\ process_kill os p = Ret tt /\ blocks p = true) ->
   exists s',
     cleanup_run_in_order os blocks items s = Stuck s'
     /\ active_processes (svc_state s') = active_processes (svc_state s)
     /\ is_ready s' = is_ready s).
Proof.
  intros Hperm.
  assert (forall sid p,
            In (sid, p) items
            <-> active_processes (svc_state s) !! sid = Some p) as Hitems.
  { intros sid p. rewrite <- list_elem_of_In, Hperm.
    apply elem_of_map_to_list. }
  split.
  - intros Hfree. unfold cleanup_run_in_order.
    rewrite cleanup_loop_run_done.
    2:{ intros [sid p] Hin. simpl. apply (Hfree sid). by apply Hitems. }
    eexists. split; [done |]. split; [done |]. split; [done |]. split.
    + intros sid p Hp. simpl. apply cleanup_processes_member.
      exists sid. by apply Hitems.
    + intros n Hn. simpl. apply cleanup_processes_lookup.
      intros [sid p] Hin. simpl. apply (Hn sid). by apply Hitems.
  - intros (sid & p & Hp & Hk & Hb). unfold cleanup_run_in_order.
    destruct (cleanup_loop_run_hangs os blocks items (svc_state s))
      as (w' & Hw' & Hreg).
    { exists (sid, p). split; [by apply Hitems | done]. }
    rewrite Hw'. by eexists.
Qed.

Lemma cleanup_clears_registry_witness :
  ((forall sid p,
      active_processes two_sessions !! sid = Some p ->
      process_kill os_spawns_200 p = Ret tt -> blocks_100 p = false) ->
   exists s',
     cleanup_run os_spawns_200 blocks_100
       {| svc_state := two_sessions; _ready := true |} = Finished s'
     /\ active_processes (svc_state s') = ∅
     /\ is_ready s' = false
     /\ (forall sid p,
           active_processes two_sessions !! sid = Some p ->
           proc_table (svc_state s') !! pid p
           = match status_after_cleanup os_spawns_200 p with
             | Some status => Some status
             | None => proc_table two_sessions !! pid p
             end)
     /\ (forall n,
           (forall sid p,
              active_processes two_sessions !! sid = Some p -> pid p <> n) ->
           proc_table (svc_state s') !! n = proc_table two_sessions !! n))
  /\
  ((exists sid p,
      active_processes two_sessions !! sid = Some p
      /\ process_kill os_spawns_200 p = Ret tt /\ blocks_100 p = true) ->
   exists s',
     cleanup_run os_spawns_200 blocks_100
       {| svc_state := two_sessions; _ready := true |} = Stuck s'
     /\ active_processes (svc_state s') = active_processes two_sessions
     /\ is_ready s' = is_ready {| svc_state := two_sessions; _ready := true |}).
Proof.
  apply (cleanup_clears_registry os_spawns_200 blocks_100
           {| svc_state := two_sessions; _ready := true |}
           (map_to_list (active_processes two_sessions))).
  reflexivity.
Defined.

(** Two runs of [cleanup] on two sessions: no drain blocks and the
    registry is cleared; the drain of process 100 blocks and the
    registry keeps both sessions. *)
Example cleanup_run_finishes :
  cleanup_run os_spawns_200 never_blocks
    {| svc_state := two_sessions; _ready := true |}
  = Finished {| svc_state :=
                  {| active_processes := ∅;
                     proc_table := {[ 100%Z := Reaped; 101%Z := Reaped ]} |};
                _ready := false |}.
Proof. vm_compute. reflexivity. Qed.

Example cleanup_run_stuck :
  exists s',
    cleanup_run os_spawns_200 blocks_100
      {| svc_state := two_sessions; _ready := true |} = Stuck s'
    /\ active_processes (svc_state s') = active_processes two_sessions
    /\ is_ready s' = true.
Proof. eexists. split; [vm_compute; reflexivity |]. split; reflexivity. Qed.

(** ** The HTTP routes *)

(** X17: the kill route answers 404 [Session not found] exactly when
    [kill_session] returns false, and never 500.  It answers 404 for an
    id that is not registered, and also for a registered session whose
    kill raises, which then stays registered; when it answers with the
    success body the entry is gone. *)
Theorem kill_route_status (os : Os) (session_id : string) (w : World) :
  (fst (kill_terminal_session os session_id w)
   = HttpError 404 (VStr "Session not found")
   /\ outcome (kill_session os session_id) w = Ret false
   /\ active_processes (snd (kill_terminal_session os session_id w))
      = active_processes w
   \/
   fst (kill_terminal_session os session_id w)
   = HttpOk {[ "message" := VStr "Session killed";
               "session_id" := VStr session_id ]}
   /\ outcome (kill_session os session_id) w = Ret true
   /\ active_processes (snd (kill_terminal_session os session_id w))
      !! session_id = None)
  /\ (forall p e,
        active_processes w !! session_id = Some p ->
        process_kill os p = Raise e ->
        kill_terminal_session os session_id w
        = (HttpError 404 (VStr "Session not found"), w)).
Proof.
  unfold kill_terminal_session, outcome.
  destruct (active_processes w !! session_id) as [p|] eqn:E.
  2:{ rewrite (kill_session_unknown _ _ _ E). simpl. split; [by left | done]. }
  rewrite (kill_session_known _ _ _ _ E).
  destruct (process_kill os p) as [[]|e] eqn:Hk.
  - destruct (communicate os p) as [drained|e]; simpl.
    + split; [| by intros q e' [= <-]; congruence].
      right. split; [done |]. split; [done |]. apply lookup_delete_eq.
    + split; [by left |]. intros q e' [= <-]. congruence.
  - simpl. split; [by left |]. by intros q e' _ _.
Qed.

(** X18: the create route registers the session under the id of the
    request, or under a fresh uuid when the request has no id or an
    empty one, and returns the result of the service; when the spawn
    raises it answers 500 with the text of the exception and changes
    nothing. *)
Theorem create_route_registers (os : Os) (fresh_uuid : string)
    (session_id : option string) (w : World) :
  (forall p,
     create_subprocess_exec os "/bin/bash" = Ret p ->
     exists id,
       id = (if Py.truthy_str session_id then default fresh_uuid session_id
             else fresh_uuid)
       /\ fst (create_terminal_session os fresh_uuid session_id w)
          = HttpOk {[ "success" := VBool true;
                      "session_id" := VStr id;
                      "pid" := VInt (pid p) ]}
       /\ active_processes
            (snd (create_terminal_session os fresh_uuid session_id w)) !! id
          = Some p)
  /\ (forall e,
        create_subprocess_exec os "/bin/bash" = Raise e ->
        create_terminal_session os fresh_uuid session_id w
        = (HttpError 500 (VStr (exn_str e)), w)).
Proof.
  unfold create_terminal_session, create_interactive_session, SM.try_except,
    SM.try_except_when, SM.bind, SM.modify, SM.ret, spawn.
  split.
  - intros p Hp. rewrite Hp. eexists. split; [done |]. simpl.
    split; [done |]. apply lookup_insert_eq.
  - intros e He. by rewrite He.
Qed.

Lemma create_route_registers_witness :
  exists id,
    id = (if Py.truthy_str None then default "0b7c" None else "0b7c")
    /\ fst (create_terminal_session os_spawns_200 "0b7c" None one_session)
       = HttpOk {[ "success" := VBool true;
                   "session_id" := VStr id;
                   "pid" := VInt (pid {| pid := 200 |}) ]}
    /\ active_processes
         (snd (create_terminal_session os_spawns_200 "0b7c" None one_session))
       !! id = Some {| pid := 200 |}.
Proof.
  apply (proj1 (create_route_registers os_spawns_200 "0b7c" None one_session)
           {| pid := 200 |}).
  reflexivity.
Defined.

Lemma execute_command_id_collision_witness :
  active_processes
    (state_after (execute_command default_settings os_prints_hello
                    "echo hello world" "default" None None None)
       colliding_session)
  !! execution_id os_prints_hello "default" = None
  /\ proc_table
       (state_after (execute_command default_settings os_prints_hello
                       "echo hello world" "default" None None None)
          colliding_session)
     !! pid {| pid := 100 |}
     = proc_table colliding_session !! pid {| pid := 100 |}.
Proof.
  apply (execute_command_id_collision default_settings os_prints_hello
           "echo hello world" "default" None None None colliding_session
           None {| pid := 7 |} {| pid := 100 |}).
  - reflexivity.
  - reflexivity.
  - reflexivity.
  - simpl. lia.
Defined.

Lemma kill_route_status_witness :
  kill_terminal_session os_kill_fails "s1" two_sessions
  = (HttpError 404 (VStr "Session not found"), two_sessions).
Proof.
  apply (proj2 (kill_route_status os_kill_fails "s1" two_sessions)
           {| pid := 100 |} (Exn ProcessLookupError EmptyString));
    reflexivity.
Defined.
